(** * Answer-synthesis and evaluation pipeline: pattern matcher and evaluator

    A shallow embedding of [ai_service/services/pattern_matcher.py],
    [ai_service/models/schemas.py] and [ai_service/agents/agent_3_evaluator.py].

    Text model.  A Python [str] is a [string]; each [ascii] is the code point
    of the same number, so the model covers text whose code points lie below
    256.  On that range [lower], [isspace] and the word class of [re] are the
    ones of CPython's Unicode tables.  Numbers that the code treats as [int]
    are [Z]; numbers it treats as [float] are binary64 [float]s. *)

From Stdlib Require Import String Ascii List ZArith Lia Bool DecimalString.
From Stdlib Require Import Floats Sorted.
Import ListNotations.
Set Warnings "-inexact-float,-register-all".

Open Scope string_scope.
Open Scope Z_scope.

(* ================================================================== *)
(** ** Python string primitives *)

Module Py.

Definition code (c : ascii) : N := N_of_ascii c.

Definition in_range (lo hi : N) (c : ascii) : bool :=
  (N.leb lo (code c) && N.leb (code c) hi)%bool.

Definition newline : ascii := "010"%char.
Definition nl : string := String newline "".

(** [str.isspace] on one character: TAB..CR, FS..US, space, NEL, NBSP. *)
Definition isspace (c : ascii) : bool :=
  (in_range 9 13 c || in_range 28 32 c || N.eqb (code c) 133 || N.eqb (code c) 160)%bool.

(** The characters that [str.lower] changes: A-Z and the Latin-1 capitals
    (0xC0-0xDE but for the multiplication sign 0xD7). *)
Definition isupper (c : ascii) : bool :=
  (in_range 65 90 c || (in_range 192 222 c && negb (N.eqb (code c) 215)))%bool.

Definition lower_char (c : ascii) : ascii :=
  if isupper c then ascii_of_N (code c + 32) else c.

Fixpoint lower (s : string) : string :=
  match s with
  | EmptyString => EmptyString
  | String c s' => String (lower_char c) (lower s')
  end.

(** The class [\w] of [re] for [str] patterns: alphanumerics and [_]. *)
Definition is_word (c : ascii) : bool :=
  (in_range 48 57 c || in_range 65 90 c || in_range 97 122 c || N.eqb (code c) 95
   || N.eqb (code c) 170 || in_range 178 179 c || N.eqb (code c) 181
   || in_range 185 186 c || in_range 188 190 c
   || in_range 192 214 c || in_range 216 246 c || in_range 248 255 c)%bool.

Definition is_empty (s : string) : bool :=
  match s with EmptyString => true | _ => false end.

Definition len (s : string) : Z := Z.of_nat (String.length s).

Fixpoint lstrip (s : string) : string :=
  match s with
  | EmptyString => EmptyString
  | String c s' => if isspace c then lstrip s' else s
  end.

Fixpoint rstrip (s : string) : string :=
  match s with
  | EmptyString => EmptyString
  | String c s' =>
      let r := rstrip s' in
      if (isspace c && is_empty r)%bool then EmptyString else String c r
  end.

(** [s.strip()] *)
Definition strip (s : string) : string := rstrip (lstrip s).

(** [s.split()]: the maximal runs of non-whitespace characters, in order.
    [cur] is the run being read. *)
Fixpoint split_ws_from (cur s : string) : list string :=
  match s with
  | EmptyString => if is_empty cur then [] else [cur]
  | String c s' =>
      if isspace c
      then (if is_empty cur then split_ws_from "" s' else cur :: split_ws_from "" s')
      else split_ws_from (cur ++ String c "") s'
  end.

Definition split_ws (s : string) : list string := split_ws_from "" s.

(** [s.split(sep)] for a one-character separator. *)
Fixpoint split_on_from (sep : ascii) (cur s : string) : list string :=
  match s with
  | EmptyString => [cur]
  | String c s' =>
      if Ascii.eqb c sep
      then cur :: split_on_from sep "" s'
      else split_on_from sep (cur ++ String c "") s'
  end.

Definition split_on (sep : ascii) (s : string) : list string :=
  split_on_from sep "" s.

(** [sub in s] *)
Fixpoint contains (sub s : string) : bool :=
  (String.prefix sub s
   || match s with
      | EmptyString => false
      | String _ s' => contains sub s'
      end)%bool.

(** [s.find(c)] for a one-character needle: the first index, or -1. *)
Fixpoint find_from (c : ascii) (i : Z) (s : string) : Z :=
  match s with
  | EmptyString => -1
  | String a s' => if Ascii.eqb a c then i else find_from c (i + 1) s'
  end.

Definition find (c : ascii) (s : string) : Z := find_from c 0 s.

(** [s.rfind(c)]: the last index, or -1. *)
Fixpoint rfind_from (c : ascii) (i : Z) (s : string) : Z :=
  match s with
  | EmptyString => -1
  | String a s' =>
      let r := rfind_from c (i + 1) s' in
      if 0 <=? r then r else if Ascii.eqb a c then i else -1
  end.

Definition rfind (c : ascii) (s : string) : Z := rfind_from c 0 s.

(** Index normalisation of a slice bound: negative bounds count from the
    end, and every bound is clipped to [0, n]. *)
Definition clip (n i : Z) : Z :=
  if i <? 0 then Z.max 0 (i + n) else Z.min i n.

(** [s[a:b]] *)
Definition slice (s : string) (a b : Z) : string :=
  let a' := clip (len s) a in
  let b' := clip (len s) b in
  substring (Z.to_nat a') (Z.to_nat (b' - a')) s.

(** [l[a:b]] on a list *)
Definition slice_list {A} (l : list A) (a b : Z) : list A :=
  let n := Z.of_nat (List.length l) in
  let a' := clip n a in
  let b' := clip n b in
  firstn (Z.to_nat (b' - a')) (skipn (Z.to_nat a') l).

(** [s[:n]] for a literal [n >= 0] *)
Definition upto (n : nat) (s : string) : string := substring 0 n s.

(** [sep.join(l)] *)
Definition join (sep : string) (l : list string) : string := String.concat sep l.

(** [str(n)] for an [int] *)
Definition str_int (n : Z) : string := NilZero.string_of_int (Z.to_int n).

(** [enumerate(l)], counting from [i] *)
Fixpoint enumerate_from {A} (i : Z) (l : list A) : list (Z * A) :=
  match l with
  | [] => []
  | x :: l' => (i, x) :: enumerate_from (i + 1) l'
  end.

Definition enumerate {A} (l : list A) : list (Z * A) := enumerate_from 0 l.

Definition len_list {A} (l : list A) : Z := Z.of_nat (List.length l).

(** A [dict] with [str] keys, as the list of its items in insertion order;
    keys are unique. *)
Definition dict (V : Type) : Type := list (string * V).

Fixpoint dict_get {V} (d : dict V) (k : string) : option V :=
  match d with
  | [] => None
  | (k', v) :: d' => if String.eqb k' k then Some v else dict_get d' k
  end.

Definition dict_mem {V} (d : dict V) (k : string) : bool :=
  match dict_get d k with Some _ => true | None => false end.

(** [d[k] = v]: an existing key keeps its place, a new one goes last. *)
Fixpoint dict_set {V} (d : dict V) (k : string) (v : V) : dict V :=
  match d with
  | [] => [(k, v)]
  | (k', v') :: d' =>
      if String.eqb k' k then (k', v) :: d' else (k', v') :: dict_set d' k v
  end.

End Py.

(* ================================================================== *)
(** ** The fragment of [re] that the pattern matcher uses *)

Module Re.

(** Pattern syntax: literals, the assertion [\b], concatenation and
    alternation, which is all the patterns of the source are made of. *)
Inductive regex : Type :=
| Lit (c : ascii)
| WordB
| Eps
| Fail
| Cat (r1 r2 : regex)
| Alt (r1 r2 : regex).

(** A compiled pattern: the flag [(?i)] and the body. *)
Record pattern : Type := Pattern { ignorecase : bool; body : regex }.

Fixpoint lit (s : string) : regex :=
  match s with
  | EmptyString => Eps
  | String c s' => Cat (Lit c) (lit s')
  end.

(** [(a1|a2|...)] *)
Fixpoint alts (l : list string) : regex :=
  match l with
  | [] => Fail
  | [a] => lit a
  | a :: l' => Alt (lit a) (alts l')
  end.

(** [\b(a1|a2|...)\b] *)
Definition words (l : list string) : regex := Cat WordB (Cat (alts l) WordB).

Definition char_matches (ic : bool) (c a : ascii) : bool :=
  if ic then Ascii.eqb (Py.lower_char a) (Py.lower_char c) else Ascii.eqb a c.

Definition is_word_opt (o : option ascii) : bool :=
  match o with Some c => Py.is_word c | None => false end.

Definition head (s : string) : option ascii :=
  match s with EmptyString => None | String c _ => Some c end.

(** A position in the subject: the character before it, if any, and the
    text from it on.  [run ic r prev s] lists the positions at which a match
    of [r] that starts at [(prev, s)] can end. *)
Fixpoint run (ic : bool) (r : regex) (prev : option ascii) (s : string)
  : list (option ascii * string) :=
  match r with
  | Lit c =>
      match s with
      | String a s' => if char_matches ic c a then [(Some a, s')] else []
      | EmptyString => []
      end
  | WordB => if xorb (is_word_opt prev) (is_word_opt (head s)) then [(prev, s)] else []
  | Eps => [(prev, s)]
  | Fail => []
  | Cat r1 r2 => flat_map (fun ps => run ic r2 (fst ps) (snd ps)) (run ic r1 prev s)
  | Alt r1 r2 => run ic r1 prev s ++ run ic r2 prev s
  end.

Definition matches_at (ic : bool) (r : regex) (prev : option ascii) (s : string) : bool :=
  match run ic r prev s with [] => false | _ :: _ => true end.

Fixpoint search_from (ic : bool) (r : regex) (prev : option ascii) (s : string) : bool :=
  (matches_at ic r prev s
   || match s with
      | EmptyString => false
      | String a s' => search_from ic r (Some a) s'
      end)%bool.

(** [bool(pattern.search(s))] *)
Definition search (p : pattern) (s : string) : bool :=
  search_from (ignorecase p) (body p) None s.

End Re.

(* ================================================================== *)
(** ** [pattern_matcher.py] *)

Module PatternMatcher.
Import Py Re.

Record MatchResult : Type := mkMatchResult {
  line_number : Z;
  line_text : string;
  matched_entities : list string;
  context : string
}.

(** [r'(?i)\b(...)\b'] *)
Definition entity (l : list string) : pattern := Pattern true (words l).

Definition ENTITY_PATTERNS : dict pattern :=
  [ ("israel", entity ["israel"; "israeli"]);
    ("unsubstantiated", entity ["unsubstantiated"; "not substantiated"; "unvalidated"]);
    ("substantiated", entity ["substantiated"; "validated"; "confirmed"]);
    ("complaint", entity ["complaint"; "adverse event"; "ae"; "report"]);
    ("usa", entity ["usa"; "united states"; "u.s.a"; "america"; "american"]);
    ("uk", entity ["uk"; "united kingdom"; "u.k"; "britain"; "british"]);
    ("germany", entity ["germany"; "german"; "deutschland"]);
    ("france", entity ["france"; "french"]);
    ("italy", entity ["italy"; "italian"]);
    ("spain", entity ["spain"; "spanish"]);
    ("canada", entity ["canada"; "canadian"]);
    ("australia", entity ["australia"; "australian"]);
    ("japan", entity ["japan"; "japanese"]);
    ("china", entity ["china"; "chinese"]) ].

(** [__init__]: every pattern is compiled once; the table keeps the keys
    and their order. *)
Definition compiled_patterns : dict pattern := ENTITY_PATTERNS.

(** [r'\b...\b'], without flags *)
Definition keyword (s : string) : pattern := Pattern false (words [s]).

Definition counting_keywords : list pattern :=
  [ keyword "how many"; keyword "count"; keyword "number of";
    keyword "total"; keyword "sum" ].

Definition is_counting_query (query : string) : bool :=
  let query_lower := lower query in
  existsb (fun pattern => search pattern query_lower) counting_keywords.

Definition extract_entities_from_query (query : string) : list string :=
  let query_lower := lower query in
  fold_left
    (fun entities item =>
       let '(entity, pattern) := item in
       if search pattern query_lower then (entities ++ [entity])%list else entities)
    compiled_patterns [].

(** The body of the scan loop for the line [line] at index [i]. *)
Definition scan_line (lines : list string) (patterns : dict (option pattern))
    (context_lines : Z) (matches : list MatchResult) (item : Z * string)
  : list MatchResult :=
  let '(i, line) := item in
  let matched_entities :=
    fold_left
      (fun matched item =>
         let '(entity, pattern) := item in
         match pattern with
         | Some p => if search p line then (matched ++ [entity])%list else matched
         | None => matched
         end)
      patterns [] in
  if Nat.eqb (List.length matched_entities) (List.length patterns) then
    let start := Z.max 0 (i - context_lines) in
    let end_ := Z.min (len_list lines) (i + context_lines + 1) in
    let context := join nl (slice_list lines start end_) in
    (matches ++ [ {| line_number := i + 1;
                     line_text := strip line;
                     matched_entities := matched_entities;
                     context := context |} ])%list
  else matches.

Definition scan_document (text : string) (entities : list string) (context_lines : Z)
  : list MatchResult :=
  match entities with
  | [] => []
  | _ :: _ =>
      let lines := split_on newline text in
      let patterns : dict (option pattern) :=
        fold_left
          (fun d entity =>
             if dict_mem compiled_patterns entity
             then dict_set d entity (dict_get compiled_patterns entity)
             else d)
          entities [] in
      fold_left (scan_line lines patterns context_lines) (enumerate lines) []
  end.

(** The default [context_lines=2]. *)
Definition scan_document_default (text : string) (entities : list string) :=
  scan_document text entities 2.

Definition _generate_summary (query : string) (entities : list string)
    (matches : list MatchResult) : string :=
  match matches with
  | [] => "No matches found for entities: " ++ join ", " entities
  | _ :: _ =>
      let summary :=
        "Found " ++ str_int (len_list matches)
        ++ " occurrences matching all entities: " ++ join ", " entities in
      let summary := summary ++ nl ++ nl ++ "Sample matches:" in
      fold_left
        (fun summary m =>
           summary ++ nl ++ "- Line " ++ str_int (line_number m) ++ ": "
           ++ upto 100 (line_text m) ++ "...")
        (slice_list matches 0 3) summary
  end.

Record CountingResult : Type := mkCountingResult {
  r_is_counting_query : bool;
  r_query : string;
  r_entities_searched : list string;
  r_total_matches : Z;
  r_matches : list MatchResult;
  r_summary : string
}.

Definition execute_counting_search (query text : string) : CountingResult :=
  let entities := extract_entities_from_query query in
  let matches := scan_document_default text entities in
  {| r_is_counting_query := true;
     r_query := query;
     r_entities_searched := entities;
     r_total_matches := len_list matches;
     r_matches :=
       map (fun m => {| line_number := line_number m;
                        line_text := line_text m;
                        matched_entities := matched_entities m;
                        context := context m |})
           (slice_list matches 0 50);
     r_summary := _generate_summary query entities matches |}.

Definition should_use_pattern_matching (query : string) : bool * list string :=
  let is_counting := is_counting_query query in
  let entities := extract_entities_from_query query in
  let should_use := (is_counting && (0 <? len_list entities))%bool in
  (should_use, entities).

End PatternMatcher.

(* ================================================================== *)
(** ** Exceptions and decoded values *)

Module Exc.

(** A raised exception: its class and [str(e)]. *)
Record exn : Type := Exn { exn_class : string; exn_str : string }.

Inductive result (A : Type) : Type :=
| Ok (a : A)
| Raise (e : exn).

Arguments Ok {A} a.
Arguments Raise {A} e.

Definition bind {A B} (r : result A) (k : A -> result B) : result B :=
  match r with
  | Ok a => k a
  | Raise e => Raise e
  end.

End Exc.

Declare Scope exc_scope.
Notation "x <- c ;; k" := (Exc.bind c (fun x => k))
  (at level 61, c at next level, right associativity) : exc_scope.
Open Scope exc_scope.

(* ================================================================== *)
(** ** [float] conversions *)

Module PyFloat.
Import Py Exc.

Definition of_SF (x : spec_float) : float := SF2Prim x.

(** The binary64 that is nearest (ties to even) to the integer [n]. *)
Definition round_int (n : Z) : spec_float := binary_normalize prec emax n 0 false.

(** [float(n)] for an [int] *)
Definition of_int (n : Z) : result float :=
  match round_int n with
  | S754_infinity _ => Raise (Exn "OverflowError" "int too large to convert to float")
  | x => Ok (of_SF x)
  end.

(** The binary64 nearest to [(-1)^neg * m * 10^e], for [0 <= m], as
    [float] computes it from a decimal literal.  Values that are out of
    range by their size alone go to infinity or to zero without the power
    of ten being computed. *)
Definition of_decimal (neg : bool) (m e : Z) : float :=
  match m with
  | Zpos p =>
      let l := Z.log2 m in
      if 0 <=? e then
        if 310 <? e then of_SF (S754_infinity neg)
        else of_SF (binary_normalize prec emax ((if neg then - m else m) * 10 ^ e) 0 false)
      else if l + 1 + 3 * e <? -1080 then of_SF (S754_zero neg)
      else if 1025 <=? l + 4 * e then of_SF (S754_infinity neg)
      else of_SF (SFdiv prec emax (S754_finite neg p 0)
                        (S754_finite false (Z.to_pos (10 ^ (- e))) 0))
  | _ => of_SF (S754_zero neg)
  end.

Definition is_digit (c : ascii) : bool := in_range 48 57 c.

Definition digit_val (c : ascii) : Z := Z.of_N (code c) - 48.

(** The longest prefix of decimal digits, and what follows it. *)
Fixpoint take_digits (s : string) : string * string :=
  match s with
  | String c s' =>
      if is_digit c
      then let '(d, r) := take_digits s' in (String c d, r)
      else (EmptyString, s)
  | EmptyString => (EmptyString, EmptyString)
  end.

Fixpoint Z_of_digits_from (acc : Z) (d : string) : Z :=
  match d with
  | EmptyString => acc
  | String c d' => Z_of_digits_from (10 * acc + digit_val c) d'
  end.

Definition Z_of_digits (d : string) : Z := Z_of_digits_from 0 d.

(** An optional exponent part [[eE][-+]?\d+] at the head of [s]: its value
    and what follows it; without digits nothing is read. *)
Definition take_exponent (s : string) : option (Z * string) :=
  match s with
  | String c s' =>
      if (Ascii.eqb c "e" || Ascii.eqb c "E")%bool then
        let '(neg, s'') :=
          match s' with
          | String sg t =>
              if Ascii.eqb sg "-" then (true, t)
              else if Ascii.eqb sg "+" then (false, t)
              else (false, s')
          | EmptyString => (false, s')
          end in
        let '(d, r) := take_digits s'' in
        if is_empty d then None
        else Some (if neg then - Z_of_digits d else Z_of_digits d, r)
      else None
  | EmptyString => None
  end.

(** The whitespace that [float] strips: TAB..CR and space. *)
Definition is_c_space (c : ascii) : bool :=
  (in_range 9 13 c || N.eqb (code c) 32)%bool.

(** Non-ASCII whitespace becomes a space and any other character from 127
    up becomes [?], which no number contains. *)
Definition to_ascii_char (c : ascii) : ascii :=
  if N.ltb (code c) 127 then c
  else if isspace c then " "%char else "?"%char.

Fixpoint to_ascii (s : string) : string :=
  match s with
  | EmptyString => EmptyString
  | String c s' => String (to_ascii_char c) (to_ascii s')
  end.

(** Underscores may stand between two digits only; they are removed.
    [prev] is the character before [s]. *)
Fixpoint drop_underscores (prev : ascii) (s : string) : option string :=
  match s with
  | EmptyString => if Ascii.eqb prev "_" then None else Some EmptyString
  | String c s' =>
      if Ascii.eqb c "_" then
        if is_digit prev then drop_underscores c s' else None
      else if (Ascii.eqb prev "_" && negb (is_digit c))%bool then None
      else match drop_underscores c s' with
           | Some r => Some (String c r)
           | None => None
           end
  end.

Fixpoint lstrip_c (s : string) : string :=
  match s with
  | EmptyString => EmptyString
  | String c s' => if is_c_space c then lstrip_c s' else s
  end.

Fixpoint rstrip_c (s : string) : string :=
  match s with
  | EmptyString => EmptyString
  | String c s' =>
      let r := rstrip_c s' in
      if (is_c_space c && is_empty r)%bool then EmptyString else String c r
  end.

(** [inf], [infinity] and [nan], in any case, after the sign. *)
Definition parse_inf_or_nan (neg : bool) (s : string) : option float :=
  let l := lower s in
  if (String.eqb l "inf" || String.eqb l "infinity")%bool
  then Some (of_SF (S754_infinity neg))
  else if String.eqb l "nan" then Some nan
  else None.

(** A decimal numeral after the sign: digits with an optional point, at
    least one digit in all, and an optional exponent; nothing may follow. *)
Definition parse_decimal (neg : bool) (s : string) : option float :=
  let '(ip, r) := take_digits s in
  let '(fp, r) :=
    match r with
    | String c r' => if Ascii.eqb c "." then take_digits r' else (EmptyString, r)
    | EmptyString => (EmptyString, r)
    end in
  if (is_empty ip && is_empty fp)%bool then None
  else
    let '(e, r) :=
      match take_exponent r with
      | Some (e, r') => (e, r')
      | None => (0, r)
      end in
    if is_empty r
    then Some (of_decimal neg (Z_of_digits (ip ++ fp)) (e - len fp))
    else None.

Definition nul : ascii := Ascii.zero.

Definition has_nul (s : string) : bool := contains (String nul "") s.

(** The text of a number, or [None] where [float(s)] raises [ValueError]. *)
Definition parse (s : string) : option float :=
  let a := to_ascii s in
  if has_nul a then None
  else
    match drop_underscores nul a with
    | None => None
    | Some u =>
        let t := rstrip_c (lstrip_c u) in
        let '(neg, body) :=
          match t with
          | String c t' =>
              if Ascii.eqb c "-" then (true, t')
              else if Ascii.eqb c "+" then (false, t')
              else (false, t)
          | EmptyString => (false, t)
          end in
        match parse_decimal neg body with
        | Some x => Some x
        | None => parse_inf_or_nan neg body
        end
    end.

Definition hex_digit (n : N) : ascii :=
  ascii_of_N (if N.ltb n 10 then 48 + n else 87 + n).

(** The characters that [repr] writes as they are. *)
Definition isprintable (c : ascii) : bool :=
  ((in_range 32 126 c || in_range 161 255 c) && negb (N.eqb (code c) 173))%bool.

Definition sq : ascii := "'"%char.
Definition dq : ascii := ascii_of_N 34.
Definition backslash : ascii := "\"%char.

Fixpoint has_char (c : ascii) (s : string) : bool :=
  match s with
  | EmptyString => false
  | String a s' => (Ascii.eqb a c || has_char c s')%bool
  end.

Fixpoint repr_body (quote : ascii) (s : string) : string :=
  match s with
  | EmptyString => EmptyString
  | String c s' =>
      (if (Ascii.eqb c quote || Ascii.eqb c backslash)%bool then String backslash (String c "")
       else if N.eqb (code c) 9 then String backslash "t"
       else if N.eqb (code c) 10 then String backslash "n"
       else if N.eqb (code c) 13 then String backslash "r"
       else if isprintable c then String c ""
       else String backslash
              (String "x" (String (hex_digit (N.div (code c) 16))
                                  (String (hex_digit (N.modulo (code c) 16)) ""))))
      ++ repr_body quote s'
  end.

(** [repr(s)] of a [str] *)
Definition repr_str (s : string) : string :=
  let quote := if (has_char sq s && negb (has_char dq s))%bool then dq else sq in
  String quote (repr_body quote s ++ String quote "").

(** [float(s)] for a [str] *)
Definition of_str (s : string) : result float :=
  match parse s with
  | Some x => Ok x
  | None => Raise (Exn "ValueError" ("could not convert string to float: " ++ repr_str s))
  end.

End PyFloat.

(* ================================================================== *)
(** ** [json.loads] *)

Module Json.
Import Py Exc PyFloat.

(** A decoded document.  An object is the [dict] that the decoder builds:
    a key read twice keeps its first place and its last value. *)
Inductive json : Type :=
| JNull
| JBool (b : bool)
| JInt (n : Z)
| JFloat (x : float)
| JString (s : string)
| JArray (l : list json)
| JObject (d : list (string * json)).

(** The outcome of scanning at a position.  A position is given by the
    text that is left from it on; [at_] counts the characters left at the
    place an error is reported for.  [Stop] and [Bad] become a
    [JSONDecodeError]; [Fails] is another exception; [Deep] says that the
    scan ran out of fuel, which it does not with the fuel of [loads]. *)
Inductive scan (A : Type) : Type :=
| Got (a : A) (rest : string)
| Stop (at_ : nat)
| Bad (msg : string) (at_ : nat)
| Fails (e : exn)
| Deep.

Arguments Got {A} a rest.
Arguments Stop {A} at_.
Arguments Bad {A} msg at_.
Arguments Fails {A} e.
Arguments Deep {A}.

Definition is_ws (c : ascii) : bool :=
  (Ascii.eqb c " " || N.eqb (code c) 9 || N.eqb (code c) 10 || N.eqb (code c) 13)%bool.

Fixpoint skip_ws (s : string) : string :=
  match s with
  | EmptyString => EmptyString
  | String c s' => if is_ws c then skip_ws s' else s
  end.

Definition hex_val (c : ascii) : option N :=
  if in_range 48 57 c then Some (code c - 48)%N
  else if in_range 97 102 c then Some (code c - 87)%N
  else if in_range 65 70 c then Some (code c - 55)%N
  else None.

Definition hex4 (a b c d : ascii) : option N :=
  match hex_val a, hex_val b, hex_val c, hex_val d with
  | Some x, Some y, Some z, Some w => Some (((x * 16 + y) * 16 + z) * 16 + w)%N
  | _, _, _, _ => None
  end.

Definition is_high_surrogate (u : N) : bool := (N.leb 55296 u && N.leb u 56319)%bool.
Definition is_low_surrogate (u : N) : bool := (N.leb 56320 u && N.leb u 57343)%bool.

(** [chr(u)].  A code point from 256 up is outside the text model; a
    question mark stands in its place. *)
Definition chr (u : N) : string :=
  String (if N.ltb u 256 then ascii_of_N u else "?"%char) "".

Definition join_surrogates (hi lo : N) : N :=
  (65536 + ((hi - 55296) * 1024 + (lo - 56320)))%N.

Definition unescape (e : ascii) : option ascii :=
  if Ascii.eqb e dq then Some dq
  else if Ascii.eqb e backslash then Some backslash
  else if Ascii.eqb e "/" then Some "/"%char
  else if Ascii.eqb e "b" then Some (ascii_of_N 8)
  else if Ascii.eqb e "f" then Some (ascii_of_N 12)
  else if Ascii.eqb e "n" then Some (ascii_of_N 10)
  else if Ascii.eqb e "r" then Some (ascii_of_N 13)
  else if Ascii.eqb e "t" then Some (ascii_of_N 9)
  else None.

Definition unterminated : string := "Unterminated string starting at".
Definition bad_unicode : string := "Invalid \uXXXX escape".

(** The string whose opening quote was just read; [begin] counts the
    characters left from that quote on, [acc] is what was read so far. *)
Fixpoint scanstring (begin : nat) (acc s : string) : scan string :=
  match s with
  | EmptyString => Bad unterminated begin
  | String c s' =>
      if Ascii.eqb c dq then Got acc s'
      else if Ascii.eqb c backslash then
        match s' with
        | EmptyString => Bad unterminated begin
        | String e s'' =>
            if Ascii.eqb e "u" then
              match s'' with
              | String h1 (String h2 (String h3 (String h4 (String _ _ as t)))) =>
                  match hex4 h1 h2 h3 h4 with
                  | None => Bad bad_unicode (String.length s')
                  | Some u =>
                      match t with
                      | String b (String u2 (String g1 (String g2 (String g3
                          (String g4 (String _ _ as t2))))) as t1) =>
                          if (is_high_surrogate u && Ascii.eqb b backslash
                              && Ascii.eqb u2 "u")%bool
                          then
                            match hex4 g1 g2 g3 g4 with
                            | None => Bad bad_unicode (String.length t1)
                            | Some v =>
                                if is_low_surrogate v
                                then scanstring begin (acc ++ chr (join_surrogates u v)) t2
                                else scanstring begin (acc ++ chr u) t
                            end
                          else scanstring begin (acc ++ chr u) t
                      | _ => scanstring begin (acc ++ chr u) t
                      end
                  end
              | _ => Bad bad_unicode (String.length s')
              end
            else
              match unescape e with
              | Some a => scanstring begin (acc ++ String a "") s''
              | None => Bad "Invalid \escape" (String.length s)
              end
        end
      else if N.leb (code c) 31 then Bad "Invalid control character at" (String.length s)
      else scanstring begin (acc ++ String c "") s'
  end.

(** [int(literal)] refuses a literal of more than 4300 digits, the sign
    not counted ([sys.get_int_max_str_digits()], as CPython 3.11 sets it). *)
Definition int_max_str_digits : Z := 4300.

Definition int_limit_error (digits : Z) : exn :=
  Exn "ValueError"
      ("Exceeds the limit (4300 digits) for integer string conversion: value has "
       ++ str_int digits
       ++ " digits; use sys.set_int_max_str_digits() to increase the limit").

(** A number at the head of [s]: an optional minus sign; then a zero, or
    a digit from 1 to 9 and any digits; then, optionally, a point and one
    digit or more; then, optionally, an exponent.  A literal with a point
    or an exponent is a [float], and any other an [int]. *)
Definition match_number (s : string) : option (result json * string) :=
  let '(neg, s1) :=
    match s with
    | String c s' => if Ascii.eqb c "-" then (true, s') else (false, s)
    | EmptyString => (false, s)
    end in
  let int_part :=
    match s1 with
    | String c s2 =>
        if in_range 49 57 c then Some (take_digits s1)
        else if Ascii.eqb c "0" then Some ("0", s2)
        else None
    | EmptyString => None
    end in
  match int_part with
  | None => None
  | Some (ip, r) =>
      let '(frac, r1) :=
        match r with
        | String c (String d _ as r') =>
            if (Ascii.eqb c "." && is_digit d)%bool
            then let '(fp, r'') := take_digits r' in (Some fp, r'')
            else (None, r)
        | _ => (None, r)
        end in
      let '(ex, r2) :=
        match take_exponent r1 with
        | Some (e, r') => (Some e, r')
        | None => (None, r1)
        end in
      match frac, ex with
      | None, None =>
          Some (if int_max_str_digits <? len ip
                then Raise (int_limit_error (len ip))
                else Ok (JInt (if neg then - Z_of_digits ip else Z_of_digits ip)),
                r2)
      | _, _ =>
          let fp := match frac with Some fp => fp | None => EmptyString end in
          let e := match ex with Some e => e | None => 0 end in
          Some (Ok (JFloat (of_decimal neg (Z_of_digits (ip ++ fp)) (e - len fp))), r2)
      end
  end.

Fixpoint drop (n : nat) (s : string) : string :=
  match n, s with
  | S n', String _ s' => drop n' s'
  | _, _ => s
  end.

(** The constants a value may start with, tried in this order when the
    first character is theirs. *)
Definition constants : list (string * json) :=
  [ ("null", JNull); ("true", JBool true); ("false", JBool false);
    ("NaN", JFloat nan); ("Infinity", JFloat infinity);
    ("-Infinity", JFloat neg_infinity) ].

Fixpoint match_constant (l : list (string * json)) (s : string) : option (json * string) :=
  match l with
  | [] => None
  | (w, v) :: l' =>
      if String.prefix w s then Some (v, drop (String.length w) s)
      else match_constant l' s
  end.

Definition lift {A B} (f : A -> B) (r : scan A) : scan B :=
  match r with
  | Got a rest => Got (f a) rest
  | Stop n => Stop n
  | Bad m n => Bad m n
  | Fails e => Fails e
  | Deep => Deep
  end.

(** [RecursionError], as the scanner raises it when it may not enter one
    more object or array. *)
Definition recursion_error (what : string) : exn :=
  Exn "RecursionError"
      ("maximum recursion depth exceeded while decoding a JSON " ++ what
       ++ " from a unicode string").

(** [scan_once] reads one value; [object_loop] and [array_loop] read the
    members that follow an opening brace or bracket.  [depth] is the number
    of objects and arrays, one inside the other, that the interpreter still
    lets the scanner enter: every opening brace or bracket takes one, and
    with none left the scanner raises [RecursionError].  [fuel] bounds the
    number of steps of the scan. *)
Fixpoint scan_once (fuel depth : nat) (s : string) {struct fuel} : scan json :=
  match fuel with
  | O => Deep
  | S fuel' =>
      match s with
      | EmptyString => Stop 0
      | String c s' =>
          if Ascii.eqb c dq then lift JString (scanstring (String.length s) "" s')
          else if Ascii.eqb c "{" then
            match depth with
            | O => Fails (recursion_error "object")
            | S depth' =>
                match skip_ws s' with
                | String "}" r => Got (JObject []) r
                | s1 => object_loop fuel' depth' [] s1
                end
            end
          else if Ascii.eqb c "[" then
            match depth with
            | O => Fails (recursion_error "array")
            | S depth' =>
                match skip_ws s' with
                | String "]" r => Got (JArray []) r
                | s1 => array_loop fuel' depth' [] s1
                end
            end
          else
            match match_constant constants s with
            | Some (v, r) => Got v r
            | None =>
                match match_number s with
                | Some (Ok v, r) => Got v r
                | Some (Raise e, _) => Fails e
                | None => Stop (String.length s)
                end
            end
      end
  end

with object_loop (fuel depth : nat) (pairs : dict json) (s : string) {struct fuel}
  : scan json :=
  match fuel with
  | O => Deep
  | S fuel' =>
      match s with
      | String c s' =>
          if Ascii.eqb c dq then
            match scanstring (String.length s) "" s' with
            | Got key r =>
                match skip_ws r with
                | String ":" r2 =>
                    match scan_once fuel' depth (skip_ws r2) with
                    | Got val r4 =>
                        let pairs := dict_set pairs key val in
                        match skip_ws r4 with
                        | String "}" r6 => Got (JObject pairs) r6
                        | String "," r6 => object_loop fuel' depth pairs (skip_ws r6)
                        | r5 => Bad "Expecting ',' delimiter" (String.length r5)
                        end
                    | Stop n => Stop n
                    | Bad m n => Bad m n
                    | Fails e => Fails e
                    | Deep => Deep
                    end
                | r1 => Bad "Expecting ':' delimiter" (String.length r1)
                end
            | Stop n => Stop n
            | Bad m n => Bad m n
            | Fails e => Fails e
            | Deep => Deep
            end
          else Bad "Expecting property name enclosed in double quotes" (String.length s)
      | EmptyString => Bad "Expecting property name enclosed in double quotes" 0
      end
  end

with array_loop (fuel depth : nat) (items : list json) (s : string) {struct fuel}
  : scan json :=
  match fuel with
  | O => Deep
  | S fuel' =>
      match scan_once fuel' depth s with
      | Got val r =>
          let items := (items ++ [val])%list in
          match skip_ws r with
          | String "]" r2 => Got (JArray items) r2
          | String "," r2 => array_loop fuel' depth items (skip_ws r2)
          | r1 => Bad "Expecting ',' delimiter" (String.length r1)
          end
      | Stop n => Stop n
      | Bad m n => Bad m n
      | Fails e => Fails e
      | Deep => Deep
      end
  end.

Fixpoint count_char (c : ascii) (s : string) : Z :=
  match s with
  | EmptyString => 0
  | String a s' => (if Ascii.eqb a c then 1 else 0) + count_char c s'
  end.

(** [str(JSONDecodeError(msg, doc, pos))] *)
Definition decode_error (msg doc : string) (pos : Z) : exn :=
  let before := slice doc 0 pos in
  let lineno := count_char newline before + 1 in
  let colno := pos - rfind newline before in
  Exn "JSONDecodeError"
      (msg ++ ": line " ++ str_int lineno ++ " column " ++ str_int colno
       ++ " (char " ++ str_int pos ++ ")").

(** What [loads] would raise if its scan ran out of fuel; it does not
    ([loads_has_fuel] below). *)
Definition out_of_fuel : exn := Exn "RuntimeError" "the scan ran out of fuel".

(** [json.loads(s)] with the default decoder, as CPython 3.11 runs it.
    [recursion_budget] is the number of objects and arrays, one inside the
    other, that the interpreter lets the scanner enter at this call: the
    recursion limit less the calls that are in progress. *)
Definition loads (recursion_budget : nat) (s : string) : result json :=
  let at_pos (n : nat) := len s - Z.of_nat n in
  match scan_once (2 * String.length s + 2) recursion_budget (skip_ws s) with
  | Got v r =>
      let r' := skip_ws r in
      if is_empty r' then Ok v
      else Raise (decode_error "Extra data" s (at_pos (String.length r')))
  | Stop n => Raise (decode_error "Expecting value" s (at_pos n))
  | Bad m n => Raise (decode_error m s (at_pos n))
  | Fails e => Raise e
  | Deep => Raise out_of_fuel
  end.

(** The name of the type of a value, as error messages give it. *)
Definition type_name (v : json) : string :=
  match v with
  | JNull => "NoneType"
  | JBool _ => "bool"
  | JInt _ => "int"
  | JFloat _ => "float"
  | JString _ => "str"
  | JArray _ => "list"
  | JObject _ => "dict"
  end.

(** [float(v)] *)
Definition to_float (v : json) : result float :=
  match v with
  | JFloat x => Ok x
  | JInt n => of_int n
  | JBool b => Ok (if b then 1%float else 0%float)
  | JString s => of_str s
  | _ => Raise (Exn "TypeError"
                  ("float() argument must be a string or a real number, not '"
                   ++ type_name v ++ "'"))
  end.

(** [v.get(key, default)] *)
Definition get (v : json) (key : string) (default : json) : result json :=
  match v with
  | JObject d =>
      Ok match dict_get d key with Some x => x | None => default end
  | _ => Raise (Exn "AttributeError"
                  ("'" ++ type_name v ++ "' object has no attribute 'get'"))
  end.

(** [v[:n]], which text and lists have. *)
Definition prefix_of (n : nat) (v : json) : result json :=
  match v with
  | JString s => Ok (JString (upto n s))
  | JArray l => Ok (JArray (firstn n l))
  | JObject _ => Raise (Exn "TypeError" "unhashable type: 'slice'")
  | _ => Raise (Exn "TypeError" ("'" ++ type_name v ++ "' object is not subscriptable"))
  end.

End Json.

(* ================================================================== *)
(** ** Formatting of numbers in f-strings *)

Module Fmt.
Import Py.

(** The quotient [n / d] rounded to the nearest integer, ties to even,
    for [0 <= n] and [0 < d]. *)
Definition div_nearest_even (n d : Z) : Z :=
  let q := n / d in
  let r := n mod d in
  if 2 * r <? d then q
  else if d <? 2 * r then q + 1
  else if Z.even q then q else q + 1.

Fixpoint zeros (k : nat) : string :=
  match k with
  | O => EmptyString
  | S k' => String "0" (zeros k')
  end.

(** The decimal digits of [n], padded on the left to [k] digits. *)
Definition pad_digits (k : nat) (n : Z) : string :=
  let d := str_int n in
  zeros (k - String.length d) ++ d.

(** [scaled / 10^k] written with [k] decimals. *)
Definition fixed_digits (k : nat) (scaled : Z) : string :=
  let p := 10 ^ Z.of_nat k in
  str_int (scaled / p)
  ++ match k with
     | O => EmptyString
     | S _ => "." ++ pad_digits k (scaled mod p)
     end.

(** [format(x, '.kf')] *)
Definition fixed (k : nat) (x : float) : string :=
  match Prim2SF x with
  | S754_nan => "nan"
  | S754_infinity s => if s then "-inf" else "inf"
  | S754_zero s => (if s then "-" else "") ++ fixed_digits k 0
  | S754_finite s m e =>
      let scaled :=
        if 0 <=? e then Zpos m * 2 ^ e * 10 ^ Z.of_nat k
        else div_nearest_even (Zpos m * 10 ^ Z.of_nat k) (2 ^ (- e)) in
      (if s then "-" else "") ++ fixed_digits k scaled
  end.

(** A literal in which a backquote stands for a double quote. *)
Fixpoint quoted (s : string) : string :=
  match s with
  | EmptyString => EmptyString
  | String c s' => String (if Ascii.eqb c "`" then PyFloat.dq else c) (quoted s')
  end.

End Fmt.

(* ================================================================== *)
(** ** [models/schemas.py] and the document records *)

Module Schemas.
Import Py Exc Json.

Record SectionUsed : Type := mkSectionUsed {
  file : string;
  page : Z;
  text_snippet : string
}.

Record Metrics : Type := mkMetrics {
  confidence_score : float;
  groundedness : float;
  groundedness_justification : string;
  accuracy : float;
  accuracy_justification : string;
  relevance : float;
  relevance_justification : string;
  sources_used : Z;
  overall_score : float;
  needs_review : bool
}.

(** [Field(..., ge=0.0, le=1.0)] *)
Definition in_unit (x : float) : bool := ((0 <=? x) && (x <=? 1))%float%bool.

Definition is_str (v : json) : bool :=
  match v with JString _ => true | _ => false end.

Definition str_of (v : json) : string :=
  match v with JString s => s | _ => EmptyString end.

(** Only the class of this exception is part of the model. *)
Definition validation_error : exn := Exn "ValidationError" "validation error for Metrics".

(** [Metrics(...)]: the model validates every field and keeps the values
    it is given. *)
Definition Metrics_new (confidence_score groundedness : float)
    (groundedness_justification : json) (accuracy : float)
    (accuracy_justification : json) (relevance : float)
    (relevance_justification : json) (sources_used : Z)
    (overall_score : float) (needs_review : bool) : result Metrics :=
  if (in_unit confidence_score
      && in_unit groundedness && is_str groundedness_justification
      && in_unit accuracy && is_str accuracy_justification
      && in_unit relevance && is_str relevance_justification
      && (0 <=? sources_used)
      && in_unit overall_score)%bool
  then Ok (mkMetrics confidence_score
             groundedness (str_of groundedness_justification)
             accuracy (str_of accuracy_justification)
             relevance (str_of relevance_justification)
             sources_used overall_score needs_review)
  else Raise validation_error.

(** One page of an extracted document and the document itself. *)
Record Page : Type := mkPage { page_num : Z; text : string }.

Record DocumentText : Type := mkDocumentText {
  file_name : string;
  total_pages : Z;
  pages : list Page;
  full_text : string
}.

End Schemas.

(* ================================================================== *)
(** ** [agents/agent_3_evaluator.py] *)

Module Agent3Evaluator.
Import Py Exc Json Fmt Schemas.

(** The dictionaries that the steps return. *)
Record FinalAnswer : Type := mkFinalAnswer {
  final_answer : json;
  confidence : float
}.

Record MetricResult : Type := mkMetricResult {
  score : float;
  justification : json
}.

Record Evaluation : Type := mkEvaluation {
  ev_final_answer : json;
  agent_3_output : string;
  metrics : Metrics
}.

Definition final_answer_system_message : string := quoted
"You are an expert answer synthesizer. Review Agent 1's detailed output and Agent 2's summarized output.
Choose the best final answer or combine them intelligently.

Return JSON:
{
    `final_answer`: `The best answer (clear, concise, complete)`,
    `confidence_score`: 0.95
}".

Definition groundedness_system_message : string := quoted
"You are a fact-checking expert evaluating GROUNDEDNESS.

GROUNDEDNESS measures whether claims in the answer are supported by verifiable data from the source documents.

Scoring rubric:
- 1.0: Every claim is directly supported by explicit statements in the documents
- 0.8: Most claims supported, minor details inferred reasonably
- 0.6: Some claims supported, but significant inferences without direct evidence
- 0.4: Many claims lack document support
- 0.2: Most claims are unsupported or contradict documents
- 0.0: Answer is entirely unsupported by documents

Your task:
1. Identify each claim in the answer
2. Check if each claim is directly found in the source documents
3. Note any inferences or unsupported statements
4. Provide detailed justification referencing specific document content

Return JSON:
{
    `score`: 0.95,
    `justification`: `Detailed explanation: List each claim and whether it's supported by documents. Quote relevant document passages.`
}".

Definition accuracy_system_message : string := quoted
"You are a factual accuracy expert evaluating ACCURACY.

ACCURACY measures whether the answer is factually correct according to the source documents.

Scoring rubric:
- 1.0: Completely accurate, no errors
- 0.8: Accurate with only trivial/formatting differences
- 0.6: Mostly accurate but contains minor factual errors
- 0.4: Contains several factual errors
- 0.2: Many significant factual errors
- 0.0: Fundamentally incorrect

Your task:
1. Compare the answer against the document facts
2. Identify any factual errors (wrong numbers, dates, names, relationships)
3. Verify calculations, counts, or aggregations if present
4. Provide detailed justification with specific examples

Return JSON:
{
    `score`: 0.95,
    `justification`: `Detailed explanation: Verify each fact. Note any errors. Cross-check calculations.`
}".

Definition relevance_system_message : string := quoted
"You are a relevance expert evaluating RELEVANCE.

RELEVANCE measures whether the answer directly addresses what the user asked.

Scoring rubric:
- 1.0: Perfectly addresses the question, no extraneous information
- 0.8: Addresses question well, minor tangential details
- 0.6: Partially addresses question, some irrelevant content
- 0.4: Loosely related but misses key aspects
- 0.2: Mostly irrelevant to the question
- 0.0: Completely irrelevant

Your task:
1. Identify what the user is asking for
2. Determine if the answer provides exactly that
3. Note any missing information or unnecessary tangents
4. Provide detailed justification

Return JSON:
{
    `score`: 0.95,
    `justification`: `Detailed explanation: Does the answer address the question? What's missing or extraneous?`
}".

(** The JSON text that the steps cut out of a response: from the first
    opening brace to the last closing brace. *)
Definition embedded_json (response : string) : string :=
  let json_start := find "{" response in
  let json_end := rfind "}" response + 1 in
  slice response json_start json_end.

Section Service.

(** [openai_client.simple_prompt(system_message, user_message, temperature)],
    which answers with text or raises. *)
Variable simple_prompt : string -> string -> float -> result string.

(** [str(v)] of a decoded value, as an f-string writes it. *)
Variable py_str : json -> string.

(** The number of objects and arrays, one inside the other, that the
    interpreter lets [json.loads] enter when a step decodes a response. *)
Variable recursion_budget : nat.

Definition final_answer_user_message (prompt agent_1_output agent_2_output : string)
  : string :=
  "Question: " ++ prompt ++ nl ++ nl
  ++ "Agent 1 (Detailed): " ++ agent_1_output ++ nl
  ++ "Agent 2 (Summary): " ++ agent_2_output ++ nl ++ nl
  ++ "Choose the best answer.".

(** The [try] block of [_determine_final_answer] and its [except] clause. *)
Definition final_answer_of_response (response agent_2_output : string) : FinalAnswer :=
  match
    (let json_start := find "{" response in
     let json_end := rfind "}" response + 1 in
     let json_str := slice response json_start json_end in
     result <- loads recursion_budget json_str ;;
     answer <- get result "final_answer" (JString agent_2_output) ;;
     c <- get result "confidence_score" (JFloat 0.8) ;;
     c <- to_float c ;;
     Ok {| final_answer := answer; confidence := c |})
  with
  | Ok r => r
  | Raise e => {| final_answer := JString agent_2_output; confidence := 0.7 |}
  end.

Definition _determine_final_answer (agent_1_output agent_2_output prompt : string)
  : result FinalAnswer :=
  let system_message := final_answer_system_message in
  let user_message := final_answer_user_message prompt agent_1_output agent_2_output in
  response <- simple_prompt system_message user_message 0.3 ;;
  Ok (final_answer_of_response response agent_2_output).

(** The [try] block that the three metric steps share, but for the name
    of the metric: [label] is the capitalised name, [name] the plain one. *)
Definition metric_of_response (label name response : string) : MetricResult :=
  match
    (let json_start := find "{" response in
     let json_end := rfind "}" response + 1 in
     let json_str := slice response json_start json_end in
     result <- loads recursion_budget json_str ;;
     s <- get result "score" (JFloat 0.7) ;;
     s <- to_float s ;;
     j <- get result "justification" (JString ("Unable to evaluate " ++ name)) ;;
     Ok {| score := s; justification := j |})
  with
  | Ok r => r
  | Raise e =>
      {| score := 0.7;
         justification := JString (label ++ " evaluation error: " ++ exn_str e) |}
  end.

Definition groundedness_user_message (final_answer : json)
    (prompt doc_context agent_1_output : string) : string :=
  "Question: " ++ prompt ++ nl ++ nl
  ++ "Answer to evaluate:" ++ nl ++ py_str final_answer ++ nl ++ nl
  ++ "Agent 1's extracted data and analysis:" ++ nl
  ++ upto 1000 agent_1_output ++ nl ++ nl
  ++ "Original source document content:" ++ nl ++ doc_context ++ nl ++ nl
  ++ "---" ++ nl ++ nl
  ++ "Evaluate the GROUNDEDNESS of the answer. Are all claims supported by the source documents?".

Definition _evaluate_groundedness (final_answer : json)
    (prompt doc_context agent_1_output : string) : result MetricResult :=
  let system_message := groundedness_system_message in
  let user_message :=
    groundedness_user_message final_answer prompt doc_context agent_1_output in
  response <- simple_prompt system_message user_message 0.2 ;;
  Ok (metric_of_response "Groundedness" "groundedness" response).

Definition accuracy_user_message (final_answer : json)
    (prompt doc_context agent_1_output : string) : string :=
  "Question: " ++ prompt ++ nl ++ nl
  ++ "Answer to evaluate:" ++ nl ++ py_str final_answer ++ nl ++ nl
  ++ "Agent 1's data extraction:" ++ nl
  ++ upto 1000 agent_1_output ++ nl ++ nl
  ++ "Original source document content:" ++ nl ++ doc_context ++ nl ++ nl
  ++ "---" ++ nl ++ nl
  ++ "Evaluate the ACCURACY of the answer. Are all facts correct according to the documents?".

Definition _evaluate_accuracy (final_answer : json)
    (prompt doc_context agent_1_output : string) : result MetricResult :=
  let system_message := accuracy_system_message in
  let user_message :=
    accuracy_user_message final_answer prompt doc_context agent_1_output in
  response <- simple_prompt system_message user_message 0.2 ;;
  Ok (metric_of_response "Accuracy" "accuracy" response).

Definition relevance_user_message (final_answer : json) (prompt : string) : string :=
  "Question: " ++ prompt ++ nl ++ nl
  ++ "Answer to evaluate:" ++ nl ++ py_str final_answer ++ nl ++ nl
  ++ "---" ++ nl ++ nl
  ++ "Evaluate the RELEVANCE of the answer. Does it directly address the user's question?".

Definition _evaluate_relevance (final_answer : json) (prompt : string)
  : result MetricResult :=
  let system_message := relevance_system_message in
  let user_message := relevance_user_message final_answer prompt in
  response <- simple_prompt system_message user_message 0.2 ;;
  Ok (metric_of_response "Relevance" "relevance" response).

(** The banner of the summary.  Its two symbols are code points above 255;
    a question mark stands for each, as in [Json.chr]. *)
Definition banner (needs_review : bool) : string :=
  if needs_review
  then "?? NEEDS REVIEW - Score below 80% threshold"
  else "? Quality threshold met".

Definition doc_context_of (document_texts : list DocumentText) : string :=
  join (nl ++ nl)
    (map (fun doc =>
            "=== Document: " ++ file_name doc ++ " ===" ++ nl
            ++ upto 2000 (full_text doc))
         (slice_list document_texts 0 3)).

(** "Combine results": the part of [_evaluate_answers] that follows the
    four steps. *)
Definition combine_results (final_answer_result : FinalAnswer)
    (groundedness_result accuracy_result relevance_result : MetricResult)
    (document_texts : list DocumentText) : result Evaluation :=
  let groundedness := score groundedness_result in
  let accuracy := score accuracy_result in
  let relevance := score relevance_result in
  let overall_score := ((groundedness + accuracy + relevance) / 3.0)%float in
  let needs_review := (overall_score <? 0.8)%float in
  metrics <- Metrics_new (confidence final_answer_result)
               groundedness (justification groundedness_result)
               accuracy (justification accuracy_result)
               relevance (justification relevance_result)
               (len_list document_texts) overall_score needs_review ;;
  let agent_3_output :=
    "EVALUATION SUMMARY:" ++ nl ++ nl
    ++ "Overall Quality Score: " ++ fixed 2 overall_score
    ++ " (" ++ fixed 0 (overall_score * 100)%float ++ "%)" ++ nl
    ++ banner needs_review ++ nl ++ nl
    ++ "GROUNDEDNESS: " ++ fixed 2 groundedness ++ nl
    ++ py_str (justification groundedness_result) ++ nl ++ nl
    ++ "ACCURACY: " ++ fixed 2 accuracy ++ nl
    ++ py_str (justification accuracy_result) ++ nl ++ nl
    ++ "RELEVANCE: " ++ fixed 2 relevance ++ nl
    ++ py_str (justification relevance_result) in
  Ok {| ev_final_answer := final_answer final_answer_result;
        agent_3_output := agent_3_output;
        metrics := metrics |}.

(** The progress lines that are printed are left out, but for the preview
    [justification[:100]] in them, which raises on a value that cannot be
    sliced. *)
Definition _evaluate_answers (agent_1_output agent_2_output prompt : string)
    (document_texts : list DocumentText) : result Evaluation :=
  let doc_context := doc_context_of document_texts in
  final_answer_result <- _determine_final_answer agent_1_output agent_2_output prompt ;;
  groundedness_result <-
    _evaluate_groundedness (final_answer final_answer_result) prompt doc_context
      agent_1_output ;;
  _ <- prefix_of 100 (justification groundedness_result) ;;
  accuracy_result <-
    _evaluate_accuracy (final_answer final_answer_result) prompt doc_context
      agent_1_output ;;
  _ <- prefix_of 100 (justification accuracy_result) ;;
  relevance_result <- _evaluate_relevance (final_answer final_answer_result) prompt ;;
  _ <- prefix_of 100 (justification relevance_result) ;;
  combine_results final_answer_result groundedness_result accuracy_result
    relevance_result document_texts.

End Service.

(** The relevance test of one page: some word of the prompt that is longer
    than 3 characters occurs in the page, both in lower case. *)
Definition page_is_relevant (prompt : string) (page : Page) : bool :=
  let page_text := lower (text page) in
  let prompt_lower := lower prompt in
  existsb (fun word => contains word page_text)
    (filter (fun word => 3 <? len word) (split_ws prompt_lower)).

(** The inner loop of [_extract_sections_used] over the pages that are
    left of [doc]; it ends at the [break]. *)
Fixpoint pages_loop (final_answer prompt : string) (doc : DocumentText)
    (pages : list Page) (sections : list SectionUsed) : list SectionUsed :=
  match pages with
  | [] => sections
  | page :: rest =>
      let page_text := lower (text page) in
      let answer_lower := lower final_answer in
      let prompt_lower := lower prompt in
      if existsb (fun word => contains word page_text)
           (filter (fun word => 3 <? len word) (split_ws prompt_lower))
      then
        let snippet := strip (upto 200 (text page)) in
        let sections :=
          if negb (is_empty snippet)
          then (sections ++ [ {| file := file_name doc;
                                 page := page_num page;
                                 text_snippet := snippet ++ "..." |} ])%list
          else sections in
        if 5 <=? len_list sections then sections
        else pages_loop final_answer prompt doc rest sections
      else pages_loop final_answer prompt doc rest sections
  end.

(** The outer loop over the documents that are left. *)
Fixpoint docs_loop (final_answer prompt : string) (docs : list DocumentText)
    (sections : list SectionUsed) : list SectionUsed :=
  match docs with
  | [] => sections
  | doc :: rest =>
      let sections := pages_loop final_answer prompt doc (pages doc) sections in
      if 5 <=? len_list sections then sections
      else docs_loop final_answer prompt rest sections
  end.

Definition _extract_sections_used (final_answer : string)
    (document_texts : list DocumentText) (prompt : string) : list SectionUsed :=
  docs_loop final_answer prompt document_texts [].

End Agent3Evaluator.

(* ================================================================== *)
(** ** Scenarios and stand-ins for the reasoning service *)

Module Scenario.
Import Py Exc Json Fmt Schemas PatternMatcher Agent3Evaluator.

Definition text : string :=
  "Israel complaint line one" ++ nl ++ "USA complaint line two" ++ nl
  ++ "Israel and USA both here".

Definition prompt : string := "How many complaints are from Israel?".

(** The recursion budget of the runs: what an interpreter with the limit
    of 1000 calls leaves to a request that is some hundred calls deep. *)
Definition budget : nat := 900.

(** A literal of [n] digits. *)
Fixpoint sevens (n : nat) : string :=
  match n with
  | O => EmptyString
  | S n' => String "7" (sevens n')
  end.

(** [n] opening brackets, a zero, and [n] closing brackets. *)
Fixpoint nested (n : nat) : string :=
  match n with
  | O => "0"
  | S n' => "[" ++ nested n' ++ "]"
  end.

(** A service that answers every request with the same text. *)
Definition constant_service (response : string) : string -> string -> float -> result string :=
  fun _ _ _ => Ok response.

(** A service that answers each step with well-formed JSON: the final
    answer with confidence 0.95 and the scores 0.9, 0.7 and 0.5. *)
Definition scoring_service (system_message user_message : string) (temperature : float)
  : result string :=
  if String.eqb system_message final_answer_system_message
  then Ok (quoted "Chosen: {`final_answer`: `Two complaints`, `confidence_score`: 0.95}")
  else if String.eqb system_message groundedness_system_message
  then Ok (quoted "{`score`: 0.9, `justification`: `Both lines are in the document.`}")
  else if String.eqb system_message accuracy_system_message
  then Ok (quoted "{`score`: 0.7, `justification`: `The count is right.`}")
  else Ok (quoted "{`score`: 0.5, `justification`: `The answer is on topic.`}").

(** [str(v)] on text; the stand-in services only make text flow into
    prompts. *)
Definition str_of_text (v : json) : string :=
  match v with JString s => s | _ => EmptyString end.

(** A service that answers as [scoring_service] does, but for the three
    scores, which are the rubric scores 1.0, 1.0 and 0.4. *)
Definition rubric_service (system_message user_message : string) (temperature : float)
  : result string :=
  if String.eqb system_message final_answer_system_message
  then Ok (quoted "Chosen: {`final_answer`: `Two complaints`, `confidence_score`: 0.95}")
  else if String.eqb system_message groundedness_system_message
  then Ok (quoted "{`score`: 1.0, `justification`: `Both lines are in the document.`}")
  else if String.eqb system_message accuracy_system_message
  then Ok (quoted "{`score`: 1.0, `justification`: `The count is right.`}")
  else Ok (quoted "{`score`: 0.4, `justification`: `The answer misses the question.`}").

(** A service whose groundedness score is JSON, but not a score: 2. *)
Definition overscoring_service (system_message user_message : string)
    (temperature : float) : result string :=
  if String.eqb system_message groundedness_system_message
  then Ok (quoted "{`score`: 2, `justification`: `Both lines are in the document.`}")
  else scoring_service system_message user_message temperature.

(** A service whose accuracy justification is JSON, but not text: null. *)
Definition null_justification_service (system_message user_message : string)
    (temperature : float) : result string :=
  if String.eqb system_message accuracy_system_message
  then Ok (quoted "{`score`: 0.7, `justification`: null}")
  else scoring_service system_message user_message temperature.

(** A document whose first line has 135 characters. *)
Definition long_line : string :=
  "Israel complaint 4471: the patient reported dizziness, nausea and a persistent "
  ++ "headache two days after the second dose was administered".

Definition long_text : string := long_line ++ nl ++ "USA complaint line two".

Definition evidence_prompt : string := "What complaints came from Israel".

Definition six_pages : list DocumentText :=
  [ {| file_name := "a.pdf"; total_pages := 6; full_text := EmptyString;
       pages := [ mkPage 1 "complaints one"; mkPage 2 "complaints two";
                  mkPage 3 "complaints three"; mkPage 4 "complaints four";
                  mkPage 5 "complaints five"; mkPage 6 "complaints six" ] |} ].

Definition padded_page : list DocumentText :=
  [ {| file_name := "a.pdf"; total_pages := 1; full_text := EmptyString;
       pages := [ mkPage 1 " complaints here" ] |} ].

(** A page in capitals, and a page without any word of the prompt. *)
Definition capitals_page : DocumentText :=
  {| file_name := "b.pdf"; total_pages := 2; full_text := EmptyString;
     pages := [ mkPage 1 "COMPLAINTS here"; mkPage 2 "Nothing to report" ] |}.

End Scenario.

(* ================================================================== *)
(** ** Binary64 numbers of the unit interval

    The predicates in which the bound on the mean of three scores is
    stated, over the specification of binary64 in [SpecFloat]. *)

Module Binary64.

(** The record of a shift holds no bit that was shifted out. *)
Definition is_exact (r : shr_record) : Prop := loc_of_shr_record r = loc_Exact.

(** [b] is [a] shifted right by [n] places. *)
Definition shifted (n : Z) (a b : shr_record) : Prop :=
  shr_m b = shr_m a / 2 ^ n
  /\ 0 <= shr_m b
  /\ (is_exact b <-> is_exact a /\ shr_m a mod 2 ^ n = 0).

(** A number from zero up to [B1], on the grid of the binary64 numbers:
    a zero, or a positive finite number [m * 2^e] with [e >= -1074] and
    [m * 2^e <= B1]. *)
Definition below (B1 : Z) (y : spec_float) : Prop :=
  match y with
  | S754_zero _ => True
  | S754_finite false m e => -1074 <= e /\ Zpos m * 2 ^ (e + 1074) <= B1 * 2 ^ 1074
  | _ => False
  end.

(** The numbers 0.0, 1.0 and 3.0. *)
Definition SF_zero : spec_float := S754_zero false.
Definition SF_one : spec_float := S754_finite false 4503599627370496 (-52).
Definition SF_three : spec_float := S754_finite false 6755399441055744 (-51).

End Binary64.

(* ================================================================== *)
(** ** Vocabulary of the statements *)

Module Spec.
Import Py Re Exc Json Schemas PatternMatcher Agent3Evaluator.

(** The dictionary [patterns] that [scan_document] builds for the
    requested entities. *)
Definition requested_patterns (entities : list string) : dict (option pattern) :=
  fold_left
    (fun d entity =>
       if dict_mem compiled_patterns entity
       then dict_set d entity (dict_get compiled_patterns entity)
       else d)
    entities [].

Definition pattern_hits (line : string) (item : string * option pattern) : bool :=
  match snd item with
  | Some p => search p line
  | None => false
  end.

(** The test [len(matched_entities) == len(patterns)] on a line. *)
Definition line_passes (patterns : dict (option pattern)) (item : Z * string) : bool :=
  Nat.eqb (List.length (filter (pattern_hits (snd item)) patterns)) (List.length patterns).

(** The [MatchResult] that the scan builds for a line that passes. *)
Definition match_of (lines : list string) (patterns : dict (option pattern))
    (context_lines : Z) (item : Z * string) : MatchResult :=
  {| line_number := fst item + 1;
     line_text := strip (snd item);
     matched_entities := map fst (filter (pattern_hits (snd item)) patterns);
     context :=
       join nl (slice_list lines (Z.max 0 (fst item - context_lines))
                  (Z.min (len_list lines) (fst item + context_lines + 1))) |}.

(** Every requested entity that has a compiled pattern matches [line]. *)
Definition all_requested_match (entities : list string) (line : string) : Prop :=
  forall e p, In e entities -> dict_get compiled_patterns e = Some p ->
              search p line = true.

(** The patterns whose literals are in lower case. *)
Fixpoint lowercase (r : regex) : bool :=
  match r with
  | Lit c => Ascii.eqb (lower_char c) c
  | Cat r1 r2 | Alt r1 r2 => (lowercase r1 && lowercase r2)%bool
  | _ => true
  end.

(** The same pattern with the flag [(?i)]. *)
Definition ignoring_case (p : pattern) : pattern := Pattern true (body p).

(** One sample line of the summary. *)
Definition sample_line (m : MatchResult) : string :=
  nl ++ "- Line " ++ str_int (line_number m) ++ ": " ++ upto 100 (line_text m) ++ "...".

(** A position of the subject, in lower case. *)
Definition lower_pos (ps : option ascii * string) : option ascii * string :=
  (option_map lower_char (fst ps), lower (snd ps)).

(** What the [try] block of [_determine_final_answer] does with the
    decoded document. *)
Definition final_answer_fields (agent_2_output : string) (v : json) : result FinalAnswer :=
  answer <- get v "final_answer" (JString agent_2_output) ;;
  c <- get v "confidence_score" (JFloat 0.8) ;;
  c <- to_float c ;;
  Ok {| final_answer := answer; confidence := c |}.

(** The value of the [except] clause of [_determine_final_answer]. *)
Definition fallback_answer (agent_2_output : string) : FinalAnswer :=
  {| final_answer := JString agent_2_output; confidence := 0.7 |}.

(** What the [try] block of a metric step does with the decoded document. *)
Definition metric_fields (name : string) (v : json) : result MetricResult :=
  s <- get v "score" (JFloat 0.7) ;;
  s <- to_float s ;;
  j <- get v "justification" (JString ("Unable to evaluate " ++ name)) ;;
  Ok {| score := s; justification := j |}.

(** The value of the [except] clause of a metric step. *)
Definition error_metric (label : string) (e : exn) : MetricResult :=
  {| score := 0.7;
     justification := JString (label ++ " evaluation error: " ++ exn_str e) |}.

(** A metric step recovers from a response: it returns, and when the JSON
    of the response cannot be cut out or decoded, or its score cannot be
    read, it returns the score 0.7 with the error as justification. *)
Definition recovers (recursion_budget : nat) (label name response : string)
    (outcome : result MetricResult) : Prop :=
  (exists r, outcome = Ok r)
  /\ (forall e, loads recursion_budget (embedded_json response) = Raise e ->
                outcome = Ok (error_metric label e))
  /\ (forall v e, loads recursion_budget (embedded_json response) = Ok v ->
                  metric_fields name v = Raise e ->
                  outcome = Ok (error_metric label e))
  /\ (find "{" response = -1 \/ rfind "}" response = -1 ->
      exists e, outcome = Ok (error_metric label e)).

(** What the construction of the metrics asks of the results of the four
    steps: a confidence and scores in [0, 1], and justifications that are
    text. *)
Definition well_formed (far : FinalAnswer) (gr ar rr : MetricResult) : bool :=
  (in_unit (confidence far)
   && in_unit (score gr) && is_str (justification gr)
   && in_unit (score ar) && is_str (justification ar)
   && in_unit (score rr) && is_str (justification rr))%bool.

(** The section that a page yields when it is selected. *)
Definition section_of (doc : DocumentText) (page : Page) : SectionUsed :=
  {| file := file_name doc;
     page := page_num page;
     text_snippet := strip (upto 200 (text page)) ++ "..." |}.

(** A page yields a section when it is relevant to the prompt and its
    first 200 characters are not all whitespace. *)
Definition yields_section (prompt : string) (page : Page) : bool :=
  (page_is_relevant prompt page && negb (is_empty (strip (upto 200 (text page)))))%bool.

Definition page_sections (prompt : string) (doc : DocumentText) (pages : list Page)
  : list SectionUsed :=
  map (section_of doc) (filter (yields_section prompt) pages).

(** The sections of all pages, in the order of the documents and of their
    pages. *)
Definition all_sections (prompt : string) (docs : list DocumentText) : list SectionUsed :=
  flat_map (fun doc => page_sections prompt doc (pages doc)) docs.

(** A text with its letters a-z turned into the capitals A-Z. *)
Definition capital (c : ascii) : ascii :=
  if in_range 97 122 c then ascii_of_N (code c - 32) else c.

Fixpoint capitals (s : string) : string :=
  match s with
  | EmptyString => EmptyString
  | String c s' => String (capital c) (capitals s')
  end.

(** [w] occurs in [t] when case is ignored. *)
Definition occurs_ignoring_case (w t : string) : Prop :=
  exists pre mid post, t = pre ++ mid ++ post /\ lower mid = lower w.

(** The selection rule in the words of the specification: some word of the
    prompt that is longer than 3 characters occurs in the page text, case
    ignored. *)
Definition selected (prompt : string) (page : Page) : Prop :=
  exists w, In w (split_ws prompt) /\ 3 < len w /\ occurs_ignoring_case w (text page).

End Spec.

(* ================================================================== *)
(** * Properties *)

Import Py Re Exc Json Schemas.

(** ** Lists and loops *)

Section Loops.
Context {A B : Type}.

(** A loop that appends [f x] for the items that pass [p] is a filter
    followed by a map. *)
Lemma fold_left_collect (p : A -> bool) (f : A -> B) (l : list A) (acc : list B) :
  fold_left (fun acc x => if p x then (acc ++ [f x])%list else acc) l acc
  = (acc ++ map f (filter p l))%list.
Proof.
  revert acc; induction l as [|x l IH]; intros acc; simpl.
  - now rewrite app_nil_r.
  - rewrite IH. destruct (p x); simpl; [now rewrite <- app_assoc|reflexivity].
Qed.

Lemma fold_left_ext (f g : B -> A -> B) (l : list A) (acc : B) :
  (forall b a, f b a = g b a) -> fold_left f l acc = fold_left g l acc.
Proof.
  intros E; revert acc; induction l as [|x l IH]; intros acc; simpl; [reflexivity|].
  now rewrite E, IH.
Qed.

Lemma filter_all_length (p : A -> bool) (l : list A) :
  List.length (filter p l) = List.length l <-> forall x, In x l -> p x = true.
Proof.
  split.
  - intros H. apply filter_length_forallb in H. now rewrite forallb_forall in H.
  - intros H. induction l as [|x l IH]; simpl; [reflexivity|].
    rewrite (H x (or_introl eq_refl)); simpl. f_equal. apply IH.
    intros y Hy; apply H; now right.
Qed.

End Loops.

Lemma clip_nonneg (n i : Z) : 0 <= n -> 0 <= i -> clip n i = Z.min i n.
Proof. intros Hn Hi; unfold clip. destruct (Z.ltb_spec i 0); [lia|reflexivity]. Qed.

(** [l[:n]] is the first [n] items. *)
Lemma slice_list_upto {A} (l : list A) (n : Z) :
  0 <= n -> slice_list l 0 n = firstn (Z.to_nat n) l.
Proof.
  intros Hn; unfold slice_list.
  rewrite !clip_nonneg by lia.
  rewrite (Z.min_l 0) by lia. simpl skipn. rewrite Z.sub_0_r.
  destruct (Z.le_ge_cases n (Z.of_nat (List.length l))) as [H|H].
  - now rewrite Z.min_l by lia.
  - rewrite Z.min_r by lia. rewrite Nat2Z.id.
    rewrite firstn_all. symmetry; apply firstn_all2; lia.
Qed.

Lemma in_enumerate_from {A} (l : list A) (i j : Z) (x : A) :
  In (j, x) (enumerate_from i l)
  <-> i <= j /\ nth_error l (Z.to_nat (j - i)) = Some x.
Proof.
  revert i; induction l as [|y l IH]; intros i; simpl.
  - split; [tauto|]. intros [_ H]. now destruct (Z.to_nat (j - i)).
  - rewrite IH. split.
    + intros [E|[Hle Hn]].
      * inversion E; subst. split; [lia|]. now rewrite Z.sub_diag.
      * split; [lia|]. replace (Z.to_nat (j - i)) with (S (Z.to_nat (j - (i + 1)))) by lia.
        exact Hn.
    + intros [Hle Hn]. destruct (Z.eq_dec i j) as [->|Hne].
      * left. rewrite Z.sub_diag in Hn. simpl in Hn. now inversion Hn.
      * right. split; [lia|].
        replace (Z.to_nat (j - i)) with (S (Z.to_nat (j - (i + 1)))) in Hn by lia.
        exact Hn.
Qed.

Lemma in_enumerate {A} (l : list A) (j : Z) (x : A) :
  In (j, x) (enumerate l) <-> 0 <= j /\ nth_error l (Z.to_nat j) = Some x.
Proof. unfold enumerate. rewrite in_enumerate_from. now rewrite Z.sub_0_r. Qed.

Lemma map_fst_enumerate_from {A} (l : list A) (i : Z) :
  map snd (enumerate_from i l) = l.
Proof. revert i; induction l as [|x l IH]; intros i; simpl; [reflexivity|now rewrite IH]. Qed.

(** ** Dictionaries *)

Section Dict.
Context {V : Type}.

Lemma dict_get_in (d : dict V) (k : string) (v : V) :
  dict_get d k = Some v -> In (k, v) d.
Proof.
  induction d as [|[k' v'] d IH]; simpl; [discriminate|].
  destruct (String.eqb_spec k' k) as [->|_].
  - intros E; inversion E; now left.
  - intros E; right; auto.
Qed.

(** Writing [f k] under [k] into a dictionary whose values are all given
    by [f] adds the item [(k, f k)] and nothing else. *)
Lemma in_dict_set (f : string -> V) (d : dict V) (k k' : string) (v' : V) :
  (forall a b, In (a, b) d -> b = f a) ->
  In (k', v') (dict_set d k (f k)) <-> In (k', v') d \/ (k' = k /\ v' = f k).
Proof.
  induction d as [|[a b] d IH]; intros Hd; simpl.
  - split.
    + intros [E|[]]; inversion E; auto.
    + intros [[]|[-> ->]]; now left.
  - assert (Hab : b = f a) by (apply Hd; now left).
    assert (Hd' : forall a b, In (a, b) d -> b = f a) by (intros; apply Hd; now right).
    destruct (String.eqb_spec a k) as [->|Hne]; simpl.
    + subst b. split; [tauto|]. intros [H|[-> ->]]; [exact H|now left].
    + rewrite (IH Hd'). tauto.
Qed.

End Dict.

(** ** The pattern matcher *)

Section PatternMatcherFacts.
Import PatternMatcher Spec.

Lemma extract_entities_filter (query : string) :
  extract_entities_from_query query
  = map fst (filter (fun item => search (snd item) (lower query)) compiled_patterns).
Proof.
  unfold extract_entities_from_query.
  rewrite (fold_left_ext _
             (fun acc item => if search (snd item) (lower query)
                              then (acc ++ [fst item])%list else acc)).
  - now rewrite fold_left_collect.
  - now intros acc [e p].
Qed.

Lemma requested_patterns_values (entities : list string) (d0 : dict (option pattern)) :
  (forall a b, In (a, b) d0 -> b = dict_get compiled_patterns a /\ b <> None) ->
  forall k v,
    In (k, v)
       (fold_left
          (fun d entity =>
             if dict_mem compiled_patterns entity
             then dict_set d entity (dict_get compiled_patterns entity)
             else d) entities d0)
    <-> In (k, v) d0
        \/ (In k entities /\ v = dict_get compiled_patterns k /\ v <> None).
Proof.
  revert d0; induction entities as [|e es IH]; intros d0 Inv k v; cbn [fold_left In].
  - tauto.
  - assert (Hval : forall a b, In (a, b) d0 -> b = dict_get compiled_patterns a)
      by (intros a b Hab; now apply Inv).
    assert (Hm : dict_mem compiled_patterns e
                 = match dict_get compiled_patterns e with Some _ => true | None => false end)
      by reflexivity.
    rewrite Hm; clear Hm.
    destruct (dict_get compiled_patterns e) as [p|] eqn:Ee.
    + assert (Hs : forall a b, In (a, b) (dict_set d0 e (Some p))
                          <-> In (a, b) d0 \/ (a = e /\ b = Some p)).
      { intros a b. rewrite <- Ee.
        apply (in_dict_set (dict_get compiled_patterns) d0 e a b Hval). }
      rewrite IH.
      * rewrite Hs. split.
        -- intros [[H|[-> ->]]|[H1 H2]]; auto.
           right. repeat split; auto; congruence.
        -- intros [H|[[<-|H1] [H2 H3]]]; auto.
           left; right. split; congruence.
      * intros a b Hab. apply Hs in Hab.
        destruct Hab as [Hab|[-> ->]]; [now apply Inv|]. split; congruence.
    + rewrite IH by exact Inv. split.
      * intros [H|[H1 H2]]; auto.
      * intros [H|[[<-|H1] [H2 H3]]]; auto. congruence.
Qed.

Lemma in_requested_patterns (entities : list string) (k : string) (v : option pattern) :
  In (k, v) (requested_patterns entities)
  <-> In k entities /\ v = dict_get compiled_patterns k /\ v <> None.
Proof.
  unfold requested_patterns. rewrite requested_patterns_values.
  - simpl; tauto.
  - intros a b [].
Qed.

Lemma line_passes_iff (entities : list string) (item : Z * string) :
  line_passes (requested_patterns entities) item = true
  <-> all_requested_match entities (snd item).
Proof.
  unfold line_passes. rewrite Nat.eqb_eq, filter_all_length. split.
  - intros H e p He Hp.
    specialize (H (e, Some p)). unfold pattern_hits in H; simpl in H. apply H.
    apply in_requested_patterns. repeat split; congruence.
  - intros H [k v] Hin. apply in_requested_patterns in Hin.
    destruct Hin as (Hk & Hv & Hne). unfold pattern_hits; simpl.
    destruct v as [p|]; [|congruence]. now apply (H k p).
Qed.

Lemma scan_line_collect (lines : list string) (patterns : dict (option pattern))
    (k : Z) (items : list (Z * string)) (acc : list MatchResult) :
  fold_left (scan_line lines patterns k) items acc
  = (acc ++ map (match_of lines patterns k) (filter (line_passes patterns) items))%list.
Proof.
  rewrite <- fold_left_collect. apply fold_left_ext.
  intros matches [i line]. unfold scan_line, line_passes, match_of; simpl.
  rewrite (fold_left_ext _
             (fun acc item => if pattern_hits line item
                              then (acc ++ [fst item])%list else acc)).
  - rewrite fold_left_collect; simpl. rewrite length_map. reflexivity.
  - intros acc' [e [p|]]; reflexivity.
Qed.

(** What [scan_document] returns for a list of entities that is not empty. *)
Lemma scan_document_filter (text : string) (entities : list string) (k : Z) :
  entities <> [] ->
  scan_document text entities k
  = map (match_of (split_on newline text) (requested_patterns entities) k)
        (filter (line_passes (requested_patterns entities))
                (enumerate (split_on newline text))).
Proof.
  intros Hne. unfold scan_document. destruct entities as [|e es]; [congruence|].
  fold (requested_patterns (e :: es)). now rewrite scan_line_collect.
Qed.

End PatternMatcherFacts.

(** ** Text *)

Lemma append_nil_r (s : string) : s ++ "" = s.
Proof. induction s as [|c s IH]; simpl; [reflexivity|now rewrite IH]. Qed.

Lemma append_assoc (s t u : string) : (s ++ t) ++ u = s ++ t ++ u.
Proof. induction s as [|c s IH]; simpl; [reflexivity|now rewrite IH]. Qed.

Lemma length_append (s t : string) :
  String.length (s ++ t) = (String.length s + String.length t)%nat.
Proof. induction s as [|c s IH]; simpl; [reflexivity|now rewrite IH]. Qed.

Lemma length_upto_min (n : nat) (s : string) :
  String.length (upto n s) = Nat.min n (String.length s).
Proof.
  unfold upto. revert s; induction n as [|n IH]; intros [|c s]; simpl; auto.
Qed.

Lemma length_upto (n : nat) (s : string) : (String.length (upto n s) <= n)%nat.
Proof.
  unfold upto. revert s; induction n as [|n IH]; intros [|c s]; simpl; try lia.
  specialize (IH s). lia.
Qed.

Lemma upto_prefix (n : nat) (s : string) : exists t, s = upto n s ++ t.
Proof.
  unfold upto. revert s; induction n as [|n IH]; intros [|c s]; simpl.
  - now exists "".
  - now exists (String c s).
  - now exists "".
  - destruct (IH s) as [t Ht]. exists t. now rewrite <- Ht.
Qed.

Lemma concat_empty_cons (x : string) (l : list string) :
  String.concat "" (x :: l) = x ++ String.concat "" l.
Proof. destruct l; simpl; [now rewrite append_nil_r|reflexivity]. Qed.

(** A loop that appends [g m] to a text for every [m] appends the
    concatenation of all of them. *)
Lemma fold_left_append {A} (g : A -> string) (l : list A) (s : string) :
  fold_left (fun s m => s ++ g m) l s = s ++ String.concat "" (map g l).
Proof.
  revert s; induction l as [|m l IH]; intros s.
  - simpl. now rewrite append_nil_r.
  - cbn [fold_left map]. rewrite IH, concat_empty_cons. apply append_assoc.
Qed.

Section PatternMatcherClaims.
Import PatternMatcher Spec.

(** C1: for a list of requested entities that is not empty, [scan_document]
    returns a match for line [L] exactly when [L] is a line of the text and
    the compiled pattern of every requested entity matches that line; so a
    line that only some of the requested entities match is never reported. *)
Theorem scan_document_conjunctive (text : string) (entities : list string)
    (context_lines L : Z) :
  entities <> [] ->
  (exists m, In m (scan_document text entities context_lines) /\ line_number m = L)
  <-> (exists line,
         1 <= L
         /\ nth_error (split_on newline text) (Z.to_nat (L - 1)) = Some line
         /\ all_requested_match entities line).
Proof.
  intros Hne. rewrite (scan_document_filter text entities context_lines Hne). split.
  - intros (m & Hin & HL). apply in_map_iff in Hin.
    destruct Hin as ([i line] & Hm & Hf). apply filter_In in Hf.
    destruct Hf as (Hi & Hp). apply in_enumerate in Hi.
    apply line_passes_iff in Hp. subst m; simpl in *. subst L.
    exists line. replace (i + 1 - 1) with i by lia. intuition lia.
  - intros (line & HL & Hn & Hall).
    exists (match_of (split_on newline text) (requested_patterns entities)
              context_lines (L - 1, line)).
    split; [|simpl; lia].
    apply in_map, filter_In. split.
    + apply in_enumerate. split; [lia|exact Hn].
    + now apply line_passes_iff.
Qed.

Lemma scan_document_conjunctive_witness :
  exists m, In m (scan_document Scenario.text ["israel"] 2) /\ line_number m = 3.
Proof.
  apply (scan_document_conjunctive Scenario.text ["israel"] 2 3).
  - discriminate.
  - exists "Israel and USA both here". split; [lia|]. split; [reflexivity|].
    intros e p [<-|[]] Hp. vm_compute in Hp. injection Hp as <-. vm_compute. reflexivity.
Defined.

Lemma requested_patterns_unknown (entities : list string) :
  (forall e, In e entities -> dict_get compiled_patterns e = None) ->
  requested_patterns entities = [].
Proof.
  intros Hu. destruct (requested_patterns entities) as [|[k v] d] eqn:E; [reflexivity|].
  assert (Hin : In (k, v) (requested_patterns entities)) by (rewrite E; now left).
  apply in_requested_patterns in Hin. destruct Hin as (Hk & Hv & Hn).
  rewrite (Hu k Hk) in Hv. congruence.
Qed.

(** C10: when the list of requested entities is not empty and none of them
    is in the table of compiled patterns, the filtered pattern set is empty,
    the test on the counts succeeds on every line, and every line of the
    text comes back as a match with no matched entity; an empty list of
    entities gives no match. *)
Theorem scan_document_unknown_entities (text : string) (entities : list string)
    (context_lines : Z) :
  entities <> [] ->
  (forall e, In e entities -> dict_get compiled_patterns e = None) ->
  requested_patterns entities = []
  /\ scan_document text entities context_lines
     = map (match_of (split_on newline text) [] context_lines)
           (enumerate (split_on newline text))
  /\ List.length (scan_document text entities context_lines)
     = List.length (split_on newline text)
  /\ (forall m, In m (scan_document text entities context_lines) ->
      matched_entities m = [])
  /\ scan_document text [] context_lines = [].
Proof.
  intros Hne Hu. pose proof (requested_patterns_unknown entities Hu) as Hp.
  assert (Hs : scan_document text entities context_lines
               = map (match_of (split_on newline text) [] context_lines)
                   (enumerate (split_on newline text))).
  { rewrite (scan_document_filter text entities context_lines Hne), Hp.
    f_equal. apply forallb_filter_id. apply forallb_forall. now intros [i line] _. }
  repeat split; auto.
  - rewrite Hs, length_map. unfold enumerate.
    rewrite <- (map_fst_enumerate_from (split_on newline text) 0) at 2.
    now rewrite length_map.
  - intros m Hm. rewrite Hs in Hm. apply in_map_iff in Hm.
    destruct Hm as (item & <- & _). reflexivity.
Qed.

Lemma scan_document_unknown_entities_witness :
  scan_document ("first" ++ nl ++ "second") ["atlantis"] 2
  = [ {| line_number := 1; line_text := "first"; matched_entities := [];
         context := "first" ++ nl ++ "second" |};
      {| line_number := 2; line_text := "second"; matched_entities := [];
         context := "first" ++ nl ++ "second" |} ].
Proof.
  destruct (scan_document_unknown_entities ("first" ++ nl ++ "second") ["atlantis"] 2)
    as (_ & H & _).
  - discriminate.
  - intros e [<-|[]]. reflexivity.
  - rewrite H. reflexivity.
Defined.

Lemma rebuild_matches (l : list MatchResult) :
  map (fun m => {| line_number := line_number m; line_text := line_text m;
                   matched_entities := matched_entities m; context := context m |}) l
  = l.
Proof. induction l as [|[n t e c] l IH]; simpl; [reflexivity|now rewrite IH]. Qed.

(** C9: [execute_counting_search] lists at most 50 matches, the first 50 of
    the scan, while [total_matches] is the number of all matching lines;
    the summary gives that number ("No matches found" when it is zero) and,
    when there are matches, one sample line for each of the first 3 at most,
    with the line text cut at 100 characters: what the sample shows is the
    beginning of the line text, all of it when it has 100 characters or
    less and its first 100 characters otherwise, followed by three dots in
    either case. *)
Theorem execute_counting_search_shape (query text : string) :
  let entities := extract_entities_from_query query in
  let found := scan_document text entities 2 in
  let r := execute_counting_search query text in
  r_entities_searched r = entities
  /\ r_matches r = firstn 50 found
  /\ (List.length (r_matches r) <= 50)%nat
  /\ r_total_matches r = Z.of_nat (List.length found)
  /\ r_summary r
     = match found with
       | [] => "No matches found for entities: " ++ join ", " entities
       | _ :: _ =>
           "Found " ++ str_int (Z.of_nat (List.length found))
           ++ " occurrences matching all entities: " ++ join ", " entities
           ++ nl ++ nl ++ "Sample matches:"
           ++ String.concat "" (map sample_line (firstn 3 found))
       end
  /\ (List.length (firstn 3 found) <= 3)%nat
  /\ (forall m, sample_line m
                = nl ++ "- Line " ++ str_int (line_number m) ++ ": "
                  ++ upto 100 (line_text m) ++ "..."
                /\ (String.length (upto 100 (line_text m)) <= 100)%nat
                /\ String.length (upto 100 (line_text m))
                   = Nat.min 100 (String.length (line_text m))
                /\ ((String.length (line_text m) <= 100)%nat ->
                    upto 100 (line_text m) = line_text m)
                /\ exists rest, line_text m = upto 100 (line_text m) ++ rest).
Proof.
  intros entities found r.
  assert (Hm : r_matches r = firstn 50 found).
  { unfold r, execute_counting_search, scan_document_default; cbn [r_matches].
    fold entities; fold found.
    now rewrite rebuild_matches, (slice_list_upto found 50) by lia. }
  split; [reflexivity|]. split; [exact Hm|].
  split; [rewrite Hm; apply firstn_le_length|].
  split; [reflexivity|]. split; [|split].
  - unfold r, execute_counting_search, scan_document_default; cbn [r_summary].
    fold entities; fold found.
    unfold _generate_summary. destruct found as [|m0 found']; [reflexivity|].
    rewrite (slice_list_upto (m0 :: found') 3) by lia.
    change (Z.to_nat 3) with 3%nat.
    rewrite (fold_left_append sample_line). unfold len_list.
    rewrite !append_assoc. reflexivity.
  - apply firstn_le_length.
  - intros m. split; [reflexivity|]. split; [apply length_upto|].
    split; [apply length_upto_min|]. split; [|apply upto_prefix].
    intros Hl. destruct (upto_prefix 100 (line_text m)) as [rest Hr].
    pose proof (length_upto_min 100 (line_text m)) as Hm'.
    rewrite Nat.min_r in Hm' by exact Hl.
    assert (Hz : String.length rest = 0%nat).
    { apply (f_equal String.length) in Hr. rewrite length_append in Hr. lia. }
    destruct rest; [|discriminate]. rewrite append_nil_r in Hr. now symmetry.
Qed.

Lemma execute_counting_search_shape_witness :
  (String.length Scenario.long_line = 135)%nat
  /\ r_total_matches (execute_counting_search Scenario.prompt Scenario.long_text) = 1
  /\ r_summary (execute_counting_search Scenario.prompt Scenario.long_text)
     = "Found 1 occurrences matching all entities: israel" ++ nl ++ nl
       ++ "Sample matches:" ++ nl ++ "- Line 1: "
       ++ "Israel complaint 4471: the patient reported dizziness, nausea and a "
       ++ "persistent headache two days aft" ++ "...".
Proof.
  destruct (execute_counting_search_shape Scenario.prompt Scenario.long_text)
    as (_ & _ & _ & Ht & Hs & _).
  split; [reflexivity|]. split; [rewrite Ht; reflexivity|].
  rewrite Hs. vm_compute. reflexivity.
Defined.

(** C5: on the three-line document and the prompt "How many complaints are
    from Israel?", the prompt is a counting query, the entities found in it
    are exactly [israel], the scan for that one entity reports two matches,
    at lines 1 and 3, and the fast path is chosen. *)
Theorem counting_scenario :
  is_counting_query Scenario.prompt = true
  /\ extract_entities_from_query Scenario.prompt = ["israel"]
  /\ map line_number (scan_document Scenario.text ["israel"] 2) = [1; 3]
  /\ List.length (scan_document Scenario.text ["israel"] 2) = 2%nat
  /\ r_total_matches (execute_counting_search Scenario.prompt Scenario.text) = 2
  /\ should_use_pattern_matching Scenario.prompt = (true, ["israel"]).
Proof. repeat split; vm_compute; reflexivity. Qed.

End PatternMatcherClaims.

(** ** Matching and case *)

Lemma lower_char_idem (c : ascii) : lower_char (lower_char c) = lower_char c.
Proof. destruct c as [[] [] [] [] [] [] [] []]; reflexivity. Qed.

Lemma is_word_lower_char (c : ascii) : is_word (lower_char c) = is_word c.
Proof. destruct c as [[] [] [] [] [] [] [] []]; reflexivity. Qed.

Lemma isspace_lower_char (c : ascii) : isspace (lower_char c) = isspace c.
Proof. destruct c as [[] [] [] [] [] [] [] []]; reflexivity. Qed.

Section Case.
Import Spec.

Lemma is_word_opt_lower (o : option ascii) :
  is_word_opt (option_map lower_char o) = is_word_opt o.
Proof. destruct o; simpl; [apply is_word_lower_char|reflexivity]. Qed.

Lemma head_lower (s : string) : head (lower s) = option_map lower_char (head s).
Proof. now destruct s. Qed.

Lemma char_matches_lower (ic : bool) (c a : ascii) :
  ic = true \/ Ascii.eqb (lower_char c) c = true ->
  char_matches ic c (lower_char a) = char_matches true c a.
Proof.
  intros [->|Hc]; simpl.
  - now rewrite lower_char_idem.
  - apply Ascii.eqb_eq in Hc. destruct ic; simpl.
    + now rewrite lower_char_idem.
    + now rewrite Hc.
Qed.

(** Running a pattern on the text in lower case, either with [(?i)] or
    with literals that are in lower case already, gives the positions that
    a run with [(?i)] on the text itself gives. *)
Lemma run_lower (ic : bool) (r : regex) :
  ic = true \/ lowercase r = true ->
  forall prev s,
    run ic r (option_map lower_char prev) (lower s)
    = map lower_pos (run true r prev s).
Proof.
  induction r as [c| | | |r1 IH1 r2 IH2|r1 IH1 r2 IH2]; intros Hc prev s;
    cbn [run lowercase] in *.
  - destruct s as [|a s]; cbn [lower]; [reflexivity|].
    rewrite (char_matches_lower ic c a Hc). now destruct (char_matches true c a).
  - rewrite is_word_opt_lower, head_lower, is_word_opt_lower.
    now destruct (xorb _ _).
  - reflexivity.
  - reflexivity.
  - assert (H1 : ic = true \/ lowercase r1 = true)
      by (destruct Hc as [?|H]; [now left|right; now apply andb_prop in H]).
    assert (H2 : ic = true \/ lowercase r2 = true)
      by (destruct Hc as [?|H]; [now left|right; now apply andb_prop in H]).
    rewrite (IH1 H1). generalize (run true r1 prev s) as l.
    induction l as [|[p t] l IHl]; cbn [map flat_map]; [reflexivity|].
    rewrite map_app, <- IHl. f_equal. apply (IH2 H2).
  - assert (H1 : ic = true \/ lowercase r1 = true)
      by (destruct Hc as [?|H]; [now left|right; now apply andb_prop in H]).
    assert (H2 : ic = true \/ lowercase r2 = true)
      by (destruct Hc as [?|H]; [now left|right; now apply andb_prop in H]).
    now rewrite map_app, (IH1 H1), (IH2 H2).
Qed.

Lemma search_from_lower (ic : bool) (r : regex) :
  ic = true \/ lowercase r = true ->
  forall s prev,
    search_from ic r (option_map lower_char prev) (lower s) = search_from true r prev s.
Proof.
  intros Hc. induction s as [|a s IH]; intros prev; cbn [search_from lower];
    unfold matches_at.
  - change EmptyString with (lower EmptyString) at 1.
    rewrite (run_lower ic r Hc). now destruct (run true r prev "").
  - change (String (lower_char a) (lower s)) with (lower (String a s)).
    rewrite (run_lower ic r Hc).
    change (Some (lower_char a)) with (option_map lower_char (Some a)).
    rewrite IH. now destruct (run true r prev (String a s)).
Qed.

(** A pattern with [(?i)] matches the text in lower case exactly when it
    matches the text. *)
Lemma search_lower (p : pattern) (s : string) :
  ignorecase p = true -> search p (lower s) = search p s.
Proof.
  intros Hi. unfold search. rewrite Hi.
  apply (search_from_lower true (body p) (or_introl eq_refl) s None).
Qed.

(** A pattern without flags whose literals are in lower case matches the
    text in lower case exactly when, with [(?i)], it matches the text. *)
Lemma search_lowercase (p : pattern) (s : string) :
  lowercase (body p) = true -> search p (lower s) = search (ignoring_case p) s.
Proof.
  intros Hl. unfold search, ignoring_case; simpl.
  apply (search_from_lower (ignorecase p) (body p) (or_intror Hl) s None).
Qed.

End Case.

Section RouterClaims.
Import PatternMatcher Spec.

Lemma entity_patterns_ignore_case (e : string) (p : pattern) :
  In (e, p) compiled_patterns -> ignorecase p = true.
Proof.
  assert (H : forallb (fun item => ignorecase (snd item)) compiled_patterns = true)
    by reflexivity.
  rewrite forallb_forall in H. intros Hin. exact (H (e, p) Hin).
Qed.

Lemma counting_keywords_lowercase (p : pattern) :
  In p counting_keywords -> lowercase (body p) = true.
Proof.
  assert (H : forallb (fun p => lowercase (body p)) counting_keywords = true)
    by reflexivity.
  rewrite forallb_forall in H. exact (H p).
Qed.

Lemma in_extract_entities (query e : string) :
  In e (extract_entities_from_query query)
  <-> exists p, In (e, p) compiled_patterns /\ search p query = true.
Proof.
  rewrite extract_entities_filter, in_map_iff. split.
  - intros ([e' p] & <- & Hf). apply filter_In in Hf. destruct Hf as (Hin & Hs).
    exists p. split; [exact Hin|]. simpl in Hs.
    now rewrite (search_lower p query (entity_patterns_ignore_case e' p Hin)) in Hs.
  - intros (p & Hin & Hs). exists (e, p). split; [reflexivity|].
    apply filter_In. split; [exact Hin|]. simpl.
    now rewrite (search_lower p query (entity_patterns_ignore_case e p Hin)).
Qed.

Lemma is_counting_query_iff (query : string) :
  is_counting_query query = true
  <-> exists p, In p counting_keywords /\ search (ignoring_case p) query = true.
Proof.
  unfold is_counting_query. rewrite existsb_exists. split.
  - intros (p & Hin & Hs). exists p. split; [exact Hin|].
    now rewrite <- (search_lowercase p query (counting_keywords_lowercase p Hin)).
  - intros (p & Hin & Hs). exists p. split; [exact Hin|].
    now rewrite (search_lowercase p query (counting_keywords_lowercase p Hin)).
Qed.

(** C2: [should_use_pattern_matching] chooses the fast path exactly when
    the prompt is a counting query, that is, matches one of the counting
    phrases with case ignored, and the pattern of at least one known entity
    matches the prompt; when [is_counting_query] is false the fast path is
    not chosen, whatever entities the prompt names. *)
Theorem fast_path_selection (query : string) :
  snd (should_use_pattern_matching query) = extract_entities_from_query query
  /\ (fst (should_use_pattern_matching query) = true
      <-> is_counting_query query = true
          /\ exists e p, In (e, p) compiled_patterns /\ search p query = true)
  /\ (is_counting_query query = false ->
      fst (should_use_pattern_matching query) = false)
  /\ (is_counting_query query = true
      <-> exists p, In p counting_keywords /\ search (ignoring_case p) query = true).
Proof.
  unfold should_use_pattern_matching; cbn [fst snd].
  split; [reflexivity|]. split; [|split].
  - rewrite andb_true_iff, Z.ltb_lt. unfold len_list.
    split; intros [Hc He]; (split; [exact Hc|]).
    + destruct (extract_entities_from_query query) as [|e es] eqn:E; [simpl in He; lia|].
      assert (Hin : In e (extract_entities_from_query query)) by (rewrite E; now left).
      apply in_extract_entities in Hin. destruct Hin as (p & Hp). now exists e, p.
    + destruct He as (e & p & Hp).
      assert (Hin : In e (extract_entities_from_query query))
        by (apply in_extract_entities; now exists p).
      destruct (extract_entities_from_query query); [destruct Hin|simpl; lia].
  - intros ->. reflexivity.
  - apply is_counting_query_iff.
Qed.

Lemma fast_path_selection_witness :
  fst (should_use_pattern_matching "Tell me about Israel and the USA") = false.
Proof.
  apply (proj1 (proj2 (proj2 (fast_path_selection "Tell me about Israel and the USA")))).
  reflexivity.
Defined.

End RouterClaims.

(** ** Lower case, words and occurrences *)

Lemma lower_append (s t : string) : lower (s ++ t) = lower s ++ lower t.
Proof. induction s as [|c s IH]; simpl; [reflexivity|now rewrite IH]. Qed.

Lemma length_lower (s : string) : String.length (lower s) = String.length s.
Proof. induction s as [|c s IH]; simpl; [reflexivity|now rewrite IH]. Qed.

Lemma is_empty_lower (s : string) : is_empty (lower s) = is_empty s.
Proof. now destruct s. Qed.

Lemma split_ws_from_lower (s cur : string) :
  split_ws_from (lower cur) (lower s) = map lower (split_ws_from cur s).
Proof.
  revert cur; induction s as [|c s IH]; intros cur; cbn [split_ws_from lower].
  - rewrite is_empty_lower. now destruct (is_empty cur).
  - rewrite isspace_lower_char, is_empty_lower. destruct (isspace c).
    + change EmptyString with (lower EmptyString) at 1 2. rewrite IH.
      now destruct (is_empty cur).
    + change (String (lower_char c) "") with (lower (String c "")).
      now rewrite <- lower_append, IH.
Qed.

(** The words of the prompt in lower case are the words of the prompt, in
    lower case. *)
Lemma split_ws_lower (s : string) : split_ws (lower s) = map lower (split_ws s).
Proof. exact (split_ws_from_lower s ""). Qed.

(** Text whose lower case is a concatenation splits in the same place. *)
Lemma lower_split (a b t : string) :
  lower t = a ++ b -> exists t1 t2, t = t1 ++ t2 /\ lower t1 = a /\ lower t2 = b.
Proof.
  revert t; induction a as [|c a IH]; intros t H.
  - exists "", t. auto.
  - destruct t as [|d t]; [discriminate|]. simpl in H. injection H as Hc Ht.
    destruct (IH t Ht) as (t1 & t2 & -> & H1 & H2).
    exists (String d t1), t2. simpl. now rewrite Hc, H1.
Qed.

Lemma prefix_iff (a b : string) : String.prefix a b = true <-> exists post, b = a ++ post.
Proof.
  revert b; induction a as [|c a IH]; intros b.
  - split; [now exists b|now destruct b].
  - destruct b as [|d b]; simpl.
    + split; [discriminate|]. now intros (post & H).
    + destruct (ascii_dec c d) as [->|Hne].
      * rewrite IH. split; intros (post & H); exists post; [now rewrite H|].
        now injection H.
      * split; [discriminate|]. intros (post & H). injection H as H _. congruence.
Qed.

(** [sub in s] holds exactly when [s] is some text, [sub], some text. *)
Lemma contains_iff (sub s : string) :
  contains sub s = true <-> exists pre post, s = pre ++ sub ++ post.
Proof.
  induction s as [|c s IH]; cbn [contains]; rewrite orb_true_iff, prefix_iff.
  - split.
    + intros [(post & H)|H]; [now exists "", post|discriminate].
    + intros (pre & post & H). left. destruct pre as [|d pre]; [now exists post|discriminate].
  - rewrite IH. split.
    + intros [(post & H)|(pre & post & ->)]; [now exists "", post|].
      now exists (String c pre), post.
    + intros (pre & post & H). destruct pre as [|d pre].
      * left. now exists post.
      * right. injection H as _ H. now exists pre, post.
Qed.

Section EvidenceFacts.
Import Agent3Evaluator Spec.

Lemma contains_lower_iff (w t : string) :
  contains (lower w) (lower t) = true <-> occurs_ignoring_case w t.
Proof.
  rewrite contains_iff. unfold occurs_ignoring_case. split.
  - intros (pre & post & H).
    destruct (lower_split _ _ _ H) as (t1 & t2 & -> & _ & H2).
    destruct (lower_split _ _ _ H2) as (mid & t3 & -> & Hm & _).
    now exists t1, mid, t3.
  - intros (pre & mid & post & -> & Hm).
    exists (lower pre), (lower post). now rewrite !lower_append, Hm.
Qed.

(** The relevance test of the code is the selection rule of the
    specification. *)
Lemma page_is_relevant_iff (prompt : string) (page : Page) :
  page_is_relevant prompt page = true <-> selected prompt page.
Proof.
  unfold page_is_relevant, selected. rewrite existsb_exists, split_ws_lower. split.
  - intros (word & Hin & Hc). apply filter_In in Hin. destruct Hin as (Hin & Hl).
    apply in_map_iff in Hin. destruct Hin as (w & <- & Hw).
    exists w. split; [exact Hw|]. split.
    + apply Z.ltb_lt in Hl. unfold len in *. now rewrite length_lower in Hl.
    + now apply contains_lower_iff.
  - intros (w & Hw & Hl & Ho). exists (lower w). split.
    + apply filter_In. split; [now apply in_map|].
      apply Z.ltb_lt. unfold len in *. now rewrite length_lower.
    + now apply contains_lower_iff.
Qed.

Lemma firstn_app_full {A} (n : nat) (l more : list A) :
  (n <= List.length l)%nat -> firstn n (l ++ more) = firstn n l.
Proof.
  intros H. rewrite firstn_app. replace (n - List.length l)%nat with 0%nat by lia.
  simpl. apply app_nil_r.
Qed.

Lemma pages_loop_spec (a prompt : string) (doc : DocumentText) (pages : list Page) :
  forall sections,
    (List.length sections < 5)%nat ->
    pages_loop a prompt doc pages sections
    = firstn 5 (sections ++ page_sections prompt doc pages).
Proof.
  unfold page_sections. induction pages as [|page rest IH]; intros sections Hlen.
  - cbn [pages_loop filter map]. rewrite app_nil_r. symmetry; apply firstn_all2; lia.
  - cbn [pages_loop filter]. unfold yields_section at 1.
    change (existsb _ _) with (page_is_relevant prompt page).
    destruct (page_is_relevant prompt page); cbn [andb]; [|now apply IH].
    destruct (is_empty (strip (upto 200 (text page)))); cbn [negb map].
    + destruct (Z.leb_spec 5 (len_list sections)) as [H|H];
        [unfold len_list in H; lia|now apply IH].
    + fold (section_of doc page).
      destruct (Z.leb_spec 5 (len_list (sections ++ [section_of doc page]))) as [H|H];
        unfold len_list in H; rewrite length_app in H; simpl in H.
      * replace (sections ++ section_of doc page :: map _ _)%list
          with ((sections ++ [section_of doc page])
                ++ map (section_of doc) (filter (yields_section prompt) rest))%list
          by now rewrite <- app_assoc.
        rewrite firstn_app_full by (rewrite length_app; simpl; lia).
        symmetry; apply firstn_all2. rewrite length_app; simpl; lia.
      * rewrite IH by (rewrite length_app; simpl; lia). now rewrite <- app_assoc.
Qed.

Lemma docs_loop_spec (a prompt : string) (docs : list DocumentText) :
  forall sections,
    (List.length sections < 5)%nat ->
    docs_loop a prompt docs sections = firstn 5 (sections ++ all_sections prompt docs).
Proof.
  unfold all_sections. induction docs as [|doc rest IH]; intros sections Hlen.
  - cbn [docs_loop flat_map]. rewrite app_nil_r. symmetry; apply firstn_all2; lia.
  - cbn [docs_loop flat_map]. rewrite (pages_loop_spec a prompt doc (pages doc)) by exact Hlen.
    rewrite app_assoc.
    set (here := (sections ++ page_sections prompt doc (pages doc))%list).
    destruct (Z.leb_spec 5 (len_list (firstn 5 here))) as [H|H];
      unfold len_list in H; rewrite length_firstn in H.
    + symmetry; apply firstn_app_full; lia.
    + rewrite (firstn_all2 here) by lia. apply IH. lia.
Qed.

(** The two loops with their [break]s return the first five of the
    sections of all pages. *)
Lemma extract_sections_spec (a : string) (docs : list DocumentText) (prompt : string) :
  _extract_sections_used a docs prompt = firstn 5 (all_sections prompt docs).
Proof. unfold _extract_sections_used. now rewrite docs_loop_spec by (simpl; lia). Qed.

Lemma in_all_sections (prompt : string) (docs : list DocumentText) (s : SectionUsed) :
  In s (all_sections prompt docs)
  <-> exists doc page,
        In doc docs /\ In page (pages doc)
        /\ yields_section prompt page = true /\ s = section_of doc page.
Proof.
  unfold all_sections, page_sections. rewrite in_flat_map. split.
  - intros (doc & Hd & Hs). apply in_map_iff in Hs. destruct Hs as (page & <- & Hf).
    apply filter_In in Hf. destruct Hf as (Hp & Hy). now exists doc, page.
  - intros (doc & page & Hd & Hp & Hy & ->). exists doc. split; [exact Hd|].
    apply in_map, filter_In. now split.
Qed.

Lemma in_firstn {A} (n : nat) (l : list A) (x : A) : In x (firstn n l) -> In x l.
Proof. intros H. rewrite <- (firstn_skipn n l). apply in_or_app. now left. Qed.

Lemma is_empty_false (s : string) : is_empty s = false <-> s <> "".
Proof. destruct s; simpl; split; congruence. Qed.

End EvidenceFacts.

Section EvidenceClaims.
Import Agent3Evaluator Spec.

(** C7, as amended: the extractor returns the first five, in the order of
    the documents and of their pages, of the sections that the pages yield,
    so at most 5, exactly 5 when five pages or more yield one, and nothing
    that comes after the fifth changes the result.  A page yields a section
    when it is relevant and its first 200 characters are not all
    whitespace; the snippet is these 200 characters without the whitespace
    at their two ends, followed by three dots. *)
Theorem extraction_capped (a : string) (docs : list DocumentText) (prompt : string) :
  _extract_sections_used a docs prompt = firstn 5 (all_sections prompt docs)
  /\ (List.length (_extract_sections_used a docs prompt) <= 5)%nat
  /\ ((5 <= List.length (all_sections prompt docs))%nat ->
      List.length (_extract_sections_used a docs prompt) = 5%nat)
  /\ (forall more,
        (5 <= List.length (all_sections prompt docs))%nat ->
        _extract_sections_used a (docs ++ more) prompt
        = _extract_sections_used a docs prompt)
  /\ (forall s,
        In s (_extract_sections_used a docs prompt) ->
        exists doc page,
          In doc docs /\ In page (pages doc)
          /\ page_is_relevant prompt page = true
          /\ strip (upto 200 (text page)) <> ""
          /\ s = {| file := file_name doc;
                    page := page_num page;
                    text_snippet := strip (upto 200 (text page)) ++ "..." |}).
Proof.
  pose proof (extract_sections_spec a docs prompt) as E.
  split; [exact E|]. split; [rewrite E; apply firstn_le_length|]. split; [|split].
  - intros H. rewrite E. now apply firstn_length_le.
  - intros more H. rewrite E, extract_sections_spec.
    unfold all_sections. rewrite flat_map_app. now apply firstn_app_full.
  - intros s Hs. rewrite E in Hs. apply in_firstn, in_all_sections in Hs.
    destruct Hs as (doc & page & Hd & Hp & Hy & ->).
    unfold yields_section in Hy. apply andb_prop in Hy. destruct Hy as (Hr & He).
    exists doc, page. repeat split; auto.
    apply is_empty_false. now destruct (is_empty _).
Qed.

Lemma extraction_capped_witness :
  List.length (_extract_sections_used "Two complaints" Scenario.six_pages
                 Scenario.evidence_prompt) = 5%nat.
Proof.
  apply (proj1 (proj2 (proj2 (extraction_capped "Two complaints" Scenario.six_pages
                                Scenario.evidence_prompt)))).
  vm_compute. lia.
Defined.

(** Against C7 as stated: a selected page whose text starts with a space
    yields a snippet without that space, which is not the first 200
    characters of the page followed by the dots. *)
Lemma extraction_snippet_counterexample :
  page_is_relevant Scenario.evidence_prompt (mkPage 1 " complaints here") = true
  /\ _extract_sections_used "Two complaints" Scenario.padded_page Scenario.evidence_prompt
     = [ {| file := "a.pdf"; page := 1; text_snippet := "complaints here..." |} ]
  /\ ~ In {| file := "a.pdf"; page := 1;
             text_snippet := upto 200 " complaints here" ++ "..." |}
          (_extract_sections_used "Two complaints" Scenario.padded_page
             Scenario.evidence_prompt).
Proof.
  split; [reflexivity|]. split; [reflexivity|].
  vm_compute. intros [H|[]]. discriminate H.
Qed.

(** Lower case undoes capitals. *)
Lemma lower_char_capital (c : ascii) : lower_char (capital c) = lower_char c.
Proof. destruct c as [[] [] [] [] [] [] [] []]; reflexivity. Qed.

Lemma lower_capitals (s : string) : lower (capitals s) = lower s.
Proof.
  induction s as [|c s IH]; cbn [capitals lower]; [reflexivity|].
  now rewrite lower_char_capital, IH.
Qed.

(** C8: the sections depend on the documents and the prompt only, not on
    the final answer; the test that selects a page holds exactly when some
    word of the prompt that is longer than 3 characters occurs in the page
    text with case ignored, and every section that is returned comes from
    a page that this test selects.  Case is ignored on both sides: a page
    that holds a long word of the prompt in capitals is selected, and so is
    a page that holds in small letters a word that the prompt has in
    capitals; the page in capitals of the scenario is selected for the
    word "complaints" and its snippet keeps the capitals, while the page
    beside it, which has no word of the prompt, is not selected. *)
Theorem extraction_ignores_answer :
  (forall a1 a2 docs prompt,
     _extract_sections_used a1 docs prompt = _extract_sections_used a2 docs prompt)
  /\ (forall prompt page, page_is_relevant prompt page = true <-> selected prompt page)
  /\ (forall a docs prompt s,
        In s (_extract_sections_used a docs prompt) ->
        exists doc page,
          In doc docs /\ In page (pages doc) /\ selected prompt page
          /\ s = section_of doc page)
  /\ (forall a doc page prompt,
        pages doc = [page] ->
        (In (section_of doc page) (_extract_sections_used a [doc] prompt)
         <-> selected prompt page /\ strip (upto 200 (text page)) <> ""))
  /\ (forall prompt w page pre post,
        In w (split_ws prompt) -> 3 < len w ->
        text page = pre ++ capitals w ++ post ->
        page_is_relevant prompt page = true)
  /\ (forall prompt w page pre post,
        In (capitals w) (split_ws prompt) -> 3 < len w ->
        text page = pre ++ w ++ post ->
        page_is_relevant prompt page = true)
  /\ (forall a,
        _extract_sections_used a [Scenario.capitals_page] Scenario.evidence_prompt
        = [ {| file := "b.pdf"; page := 1; text_snippet := "COMPLAINTS here..." |} ])
  /\ page_is_relevant Scenario.evidence_prompt (mkPage 1 "COMPLAINTS here") = true
  /\ page_is_relevant Scenario.evidence_prompt (mkPage 2 "Nothing to report") = false
  /\ page_is_relevant "COMPLAINTS by country" (mkPage 1 "two complaints") = true.
Proof.
  split; [|split; [|split; [|split; [|split; [|split; [|split; [|split; [|split]]]]]]]].
  - intros a1 a2 docs prompt. now rewrite !extract_sections_spec.
  - exact page_is_relevant_iff.
  - intros a docs prompt s Hs. rewrite extract_sections_spec in Hs.
    apply in_firstn, in_all_sections in Hs.
    destruct Hs as (doc & page & Hd & Hp & Hy & ->).
    unfold yields_section in Hy. apply andb_prop in Hy. destruct Hy as (Hr & _).
    exists doc, page. repeat split; auto. now apply page_is_relevant_iff.
  - intros a doc page prompt Hpages. rewrite extract_sections_spec.
    unfold all_sections, page_sections; cbn [flat_map]. rewrite Hpages, app_nil_r.
    cbn [filter]. unfold yields_section.
    rewrite <- page_is_relevant_iff, <- is_empty_false.
    destruct (page_is_relevant prompt page), (is_empty (strip (upto 200 (text page))));
      simpl; intuition congruence.
  - intros prompt w page pre post Hw Hl Ht. apply page_is_relevant_iff.
    exists w. split; [exact Hw|]. split; [exact Hl|].
    exists pre, (capitals w), post. split; [exact Ht|apply lower_capitals].
  - intros prompt w page pre post Hw Hl Ht. apply page_is_relevant_iff.
    exists (capitals w). split; [exact Hw|]. split.
    + unfold len in *. rewrite <- length_lower, lower_capitals, length_lower. exact Hl.
    + exists pre, w, post. split; [exact Ht|]. now rewrite lower_capitals.
  - intros a. rewrite extract_sections_spec. reflexivity.
  - reflexivity.
  - reflexivity.
  - reflexivity.
Qed.

Lemma extraction_ignores_answer_witness :
  selected Scenario.evidence_prompt (mkPage 1 "COMPLAINTS here")
  /\ ~ selected Scenario.evidence_prompt (mkPage 2 "Nothing to report").
Proof.
  split.
  - apply (proj1 (proj2 extraction_ignores_answer)). reflexivity.
  - intros H. apply (proj1 (proj2 extraction_ignores_answer)) in H. discriminate H.
Defined.

End EvidenceClaims.

(** ** The decoder does not run out of depth *)

Section DecoderDepth.
Import PyFloat.

Lemma length_skip_ws (s : string) : (String.length (skip_ws s) <= String.length s)%nat.
Proof.
  induction s as [|c s IH]; simpl; [lia|]. destruct (is_ws c); simpl; lia.
Qed.

Lemma length_take_digits (s d r : string) :
  take_digits s = (d, r) -> String.length s = (String.length d + String.length r)%nat.
Proof.
  revert d r; induction s as [|c s IH]; intros d r; simpl.
  - intros E; injection E as <- <-. reflexivity.
  - destruct (is_digit c).
    + destruct (take_digits s) as [d' r'] eqn:E'. intros E; injection E as <- <-.
      simpl. now rewrite (IH d' r' eq_refl).
    + intros E; injection E as <- <-. reflexivity.
Qed.

Lemma length_take_exponent (s r : string) (e : Z) :
  take_exponent s = Some (e, r) -> (String.length r < String.length s)%nat.
Proof.
  destruct s as [|c s]; simpl; [discriminate|].
  destruct (_ || _)%bool; [|discriminate].
  assert (H : forall (neg : bool) (t : string), (String.length t <= String.length s)%nat ->
            (let '(d, r0) := take_digits t in
             if is_empty d then None
             else Some (if neg then - Z_of_digits d else Z_of_digits d, r0))
            = Some (e, r) -> (String.length r < S (String.length s))%nat).
  { intros neg t Ht. destruct (take_digits t) as [d r0] eqn:E.
    apply length_take_digits in E. destruct (is_empty d); [discriminate|].
    intros E'; injection E' as _ <-. lia. }
  destruct s as [|sg t]; [apply (H false ""); simpl; lia|].
  destruct (Ascii.eqb sg "-"); [apply (H true t); simpl; lia|].
  destruct (Ascii.eqb sg "+"); [apply (H false t); simpl; lia|].
  apply (H false (String sg t)); simpl; lia.
Qed.

Lemma length_match_number (s r : string) (v : result json) :
  match_number s = Some (v, r) -> (String.length r < String.length s)%nat.
Proof.
  unfold match_number.
  set (sign := match s with
               | String c s' => if Ascii.eqb c "-" then (true, s') else (false, s)
               | EmptyString => (false, s)
               end).
  assert (Hs : (String.length (snd sign) <= String.length s)%nat).
  { subst sign. destruct s as [|c s']; simpl; [lia|]. destruct (Ascii.eqb c "-"); simpl; lia. }
  destruct sign as [neg s1]. simpl in Hs.
  set (int_part := match s1 with
                   | String c s2 =>
                       if in_range 49 57 c then Some (take_digits s1)
                       else if Ascii.eqb c "0" then Some ("0", s2)
                       else None
                   | EmptyString => None
                   end).
  assert (Hi : forall ip r0, int_part = Some (ip, r0) ->
                             (String.length r0 < String.length s1)%nat).
  { subst int_part. intros ip r0. destruct s1 as [|c s2]; [discriminate|].
    destruct (in_range 49 57 c) eqn:Ec.
    - intros E.
      assert (E' : take_digits (String c s2) = (ip, r0)) by congruence.
      pose proof (length_take_digits _ _ _ E') as Hl.
      assert (Hd : is_digit c = true).
      { unfold is_digit, in_range in *. apply andb_prop in Ec. destruct Ec as [E1 E2].
        rewrite E2, andb_true_r. apply N.leb_le. apply N.leb_le in E1. lia. }
      cbn [take_digits] in E'. rewrite Hd in E'.
      destruct (take_digits s2) as [d' r']. injection E' as <- <-.
      simpl in Hl |- *. lia.
    - destruct (Ascii.eqb c "0"); [|discriminate].
      intros E; injection E as <- <-. simpl; lia. }
  destruct int_part as [[ip r0]|]; [|discriminate].
  specialize (Hi ip r0 eq_refl).
  set (frac := match r0 with
               | String c (String d _ as r') =>
                   if (Ascii.eqb c "." && is_digit d)%bool
                   then let '(fp, r'') := take_digits r' in (Some fp, r'')
                   else (None, r0)
               | _ => (None, r0)
               end).
  assert (Hf : (String.length (snd frac) <= String.length r0)%nat).
  { subst frac. destruct r0 as [|c [|d r']]; cbn [snd]; try lia.
    destruct (_ && _)%bool; cbn [snd]; [|lia].
    destruct (take_digits (String d r')) as [fp r''] eqn:E.
    apply length_take_digits in E. cbn [snd String.length] in *. lia. }
  destruct frac as [fr r1]. simpl in Hf.
  assert (He : (String.length (snd (match take_exponent r1 with
                                    | Some (e, r') => (Some e, r')
                                    | None => (None, r1)
                                    end)) <= String.length r1)%nat).
  { destruct (take_exponent r1) as [[e r']|] eqn:E; simpl; [|lia].
    apply length_take_exponent in E. lia. }
  destruct (match take_exponent r1 with
            | Some (e, r') => (Some e, r')
            | None => (None, r1)
            end) as [ex r2]. simpl in He.
  destruct fr, ex; intros E; injection E as _ <-; lia.
Qed.

Lemma length_drop (n : nat) (s : string) :
  String.length (drop n s) = (String.length s - n)%nat.
Proof. revert s; induction n as [|n IH]; intros [|c s]; simpl; auto. Qed.

Lemma length_match_constant (s r : string) (v : json) :
  match_constant constants s = Some (v, r) -> (String.length r < String.length s)%nat.
Proof.
  assert (H : forall l, Forall (fun wv => fst wv <> "") l ->
                        match_constant l s = Some (v, r) ->
                        (String.length r < String.length s)%nat).
  { induction l as [|[w x] l IH]; intros Hl; simpl; [discriminate|].
    inversion Hl as [|? ? Hw Hl']; subst. simpl in Hw.
    destruct (String.prefix w s) eqn:Ep; [|now apply IH].
    intros E; injection E as _ <-. rewrite length_drop.
    apply prefix_iff in Ep. destruct Ep as (post & ->).
    rewrite length_append. destruct w; [congruence|simpl; lia]. }
  apply H. unfold constants. repeat constructor; discriminate.
Qed.

Ltac break_match :=
  match goal with
  | |- context [match ?x with _ => _ end] =>
      let E := fresh "E" in destruct x eqn:E
  | |- context [if ?x then _ else _] =>
      let E := fresh "E" in destruct x eqn:E
  end.

Lemma length_scanstring (n : nat) :
  forall s b acc v r,
    (String.length s <= n)%nat ->
    scanstring b acc s = Got v r -> (String.length r < String.length s)%nat.
Proof.
  induction n as [|n IH]; intros s b acc v r Hn.
  - destruct s; [discriminate|simpl in Hn; lia].
  - destruct s as [|c s']; [discriminate|]. cbn [scanstring].
    repeat (break_match; try discriminate; subst);
      intros H;
      try (injection H as <- <-; simpl; lia);
      try (apply IH in H; [simpl in *; lia|simpl in *; lia]).
Qed.

Lemma scans_shorten (fuel : nat) :
  (forall depth s v r,
     scan_once fuel depth s = Got v r -> (String.length r < String.length s)%nat)
  /\ (forall depth pairs s v r,
        object_loop fuel depth pairs s = Got v r ->
        (String.length r < String.length s)%nat)
  /\ (forall depth items s v r,
        array_loop fuel depth items s = Got v r ->
        (String.length r < String.length s)%nat).
Proof.
  induction fuel as [|fuel (IHs & IHo & IHa)]; [repeat split; discriminate|].
  split; [|split].
  - intros depth s v r. cbn [scan_once]. destruct s as [|c s']; [discriminate|].
    destruct (Ascii.eqb c dq).
    { destruct (scanstring _ _ s') as [a rest| | | |] eqn:E; try discriminate.
      apply (length_scanstring _ _ _ _ _ _ (Nat.le_refl _)) in E.
      intros H; injection H as _ <-. simpl; lia. }
    destruct (Ascii.eqb c "{").
    { destruct depth as [|depth']; [discriminate|].
      pose proof (length_skip_ws s') as Hw.
      destruct (skip_ws s') as [|c1 s1] eqn:Es.
      - intros H. apply IHo in H. simpl in *. lia.
      - assert (Ho : forall v r, object_loop fuel depth' [] (String c1 s1) = Got v r ->
                                  (String.length r < String.length (String c s'))%nat).
        { intros v0 r0 H. apply IHo in H. simpl in *. lia. }
        repeat (break_match; try discriminate; subst);
          intros H; try (apply Ho in H; simpl in *; lia);
          injection H as _ <-; simpl in *; lia. }
    destruct (Ascii.eqb c "[").
    { destruct depth as [|depth']; [discriminate|].
      pose proof (length_skip_ws s') as Hw.
      destruct (skip_ws s') as [|c1 s1] eqn:Es.
      - intros H. apply IHa in H. simpl in *. lia.
      - assert (Ho : forall v r, array_loop fuel depth' [] (String c1 s1) = Got v r ->
                                  (String.length r < String.length (String c s'))%nat).
        { intros v0 r0 H. apply IHa in H. simpl in *. lia. }
        repeat (break_match; try discriminate; subst);
          intros H; try (apply Ho in H; simpl in *; lia);
          injection H as _ <-; simpl in *; lia. }
    destruct (match_constant constants (String c s')) as [[v0 r0]|] eqn:Ec.
    { apply length_match_constant in Ec. intros H; injection H as _ <-. exact Ec. }
    destruct (match_number (String c s')) as [[[v0|e0] r0]|] eqn:En; try discriminate.
    apply length_match_number in En. intros H; injection H as _ <-. exact En.
  - intros depth pairs s v r. cbn [object_loop]. destruct s as [|c s']; [discriminate|].
    destruct (Ascii.eqb c dq); [|discriminate].
    destruct (scanstring _ _ s') as [key r1| | | |] eqn:E1; try discriminate.
    apply (length_scanstring _ _ _ _ _ _ (Nat.le_refl _)) in E1.
    pose proof (length_skip_ws r1) as Hw1.
    destruct (skip_ws r1) as [|c1 r2] eqn:Es1; [discriminate|].
    assert (Hv : forall val r4, scan_once fuel depth (skip_ws r2) = Got val r4 ->
                                (String.length r4 < String.length s')%nat).
    { intros val r4 H. apply IHs in H. pose proof (length_skip_ws r2). simpl in *. lia. }
    assert (Hrest : forall val r4,
               scan_once fuel depth (skip_ws r2) = Got val r4 ->
               match skip_ws r4 with
               | String "}" r6 => Got (JObject (dict_set pairs key val)) r6
               | String "," r6 =>
                   object_loop fuel depth (dict_set pairs key val) (skip_ws r6)
               | r5 => Bad "Expecting ',' delimiter" (String.length r5)
               end = Got v r -> (String.length r < S (String.length s'))%nat).
    { intros val r4 Hs. apply Hv in Hs. pose proof (length_skip_ws r4) as Hw4.
      destruct (skip_ws r4) as [|c4 r6] eqn:Es4; [discriminate|].
      assert (Ho : forall v r,
                 object_loop fuel depth (dict_set pairs key val) (skip_ws r6) = Got v r ->
                 (String.length r < S (String.length s'))%nat).
      { intros v0 r0 H. apply IHo in H. pose proof (length_skip_ws r6). simpl in *. lia. }
      repeat (break_match; try discriminate; subst);
        intros H; try (apply Ho in H; simpl in *; lia);
        injection H as _ <-; simpl in *; lia. }
    simpl String.length.
    destruct (scan_once fuel depth (skip_ws r2)) as [val r4| | | |] eqn:E2.
    2-5: repeat (break_match; try discriminate).
    specialize (Hrest val r4 eq_refl).
    repeat (break_match; try discriminate; subst); exact Hrest.
  - intros depth items s v r. cbn [array_loop].
    destruct (scan_once fuel depth s) as [val r1| | | |] eqn:E1; try discriminate.
    apply IHs in E1. pose proof (length_skip_ws r1) as Hw1.
    destruct (skip_ws r1) as [|c1 r2] eqn:Es1; [discriminate|].
    assert (Ho : forall v r,
               array_loop fuel depth (items ++ [val]) (skip_ws r2) = Got v r ->
               (String.length r < String.length s)%nat).
    { intros v0 r0 H. apply IHa in H. pose proof (length_skip_ws r2). simpl in *. lia. }
    repeat (break_match; try discriminate; subst);
      intros H; try (apply Ho in H; simpl in *; lia);
      injection H as _ <-; simpl in *; lia.
Qed.

Lemma scanstring_not_deep (n : nat) :
  forall s b acc, (String.length s <= n)%nat -> scanstring b acc s <> Deep.
Proof.
  induction n as [|n IH]; intros s b acc Hn.
  - destruct s; [discriminate|simpl in Hn; lia].
  - destruct s as [|c s']; [discriminate|]. cbn [scanstring].
    repeat (break_match; try discriminate; subst);
      apply IH; simpl in *; lia.
Qed.

(** With twice as much fuel as there are characters, and one or two more,
    the scans do not run out of it, whatever depth the interpreter grants. *)
Lemma scans_within_fuel (fuel : nat) :
  (forall depth s,
     (2 * String.length s + 1 <= fuel)%nat -> scan_once fuel depth s <> Deep)
  /\ (forall depth pairs s,
        (2 * String.length s + 2 <= fuel)%nat -> object_loop fuel depth pairs s <> Deep)
  /\ (forall depth items s,
        (2 * String.length s + 2 <= fuel)%nat -> array_loop fuel depth items s <> Deep).
Proof.
  induction fuel as [|fuel (IHs & IHo & IHa)]; [repeat split; intros; lia|].
  destruct (scans_shorten fuel) as (Ls & Lo & La).
  split; [|split].
  - intros depth s Hf. cbn [scan_once]. destruct s as [|c s']; [discriminate|].
    simpl in Hf. pose proof (length_skip_ws s') as Hw.
    destruct (Ascii.eqb c dq).
    { pose proof (scanstring_not_deep _ s' (String.length (String c s')) ""
                    (Nat.le_refl _)) as Hn.
      now destruct (scanstring _ _ s'). }
    destruct (Ascii.eqb c "{").
    { destruct depth as [|depth']; [discriminate|].
      destruct (skip_ws s') as [|c1 s1] eqn:Es; [apply IHo; simpl; lia|].
      assert (Ho : object_loop fuel depth' [] (String c1 s1) <> Deep)
        by (apply IHo; simpl in *; lia).
      repeat (break_match; try discriminate; subst); exact Ho. }
    destruct (Ascii.eqb c "[").
    { destruct depth as [|depth']; [discriminate|].
      destruct (skip_ws s') as [|c1 s1] eqn:Es; [apply IHa; simpl; lia|].
      assert (Ho : array_loop fuel depth' [] (String c1 s1) <> Deep)
        by (apply IHa; simpl in *; lia).
      repeat (break_match; try discriminate; subst); exact Ho. }
    repeat (break_match; try discriminate).
  - intros depth pairs s Hf. cbn [object_loop]. destruct s as [|c s']; [discriminate|].
    simpl in Hf. destruct (Ascii.eqb c dq); [|discriminate].
    pose proof (scanstring_not_deep _ s' (String.length (String c s')) ""
                  (Nat.le_refl _)) as Hn.
    destruct (scanstring _ _ s') as [key r1| | | |] eqn:E1; try discriminate; [|congruence].
    apply (length_scanstring _ _ _ _ _ _ (Nat.le_refl _)) in E1.
    pose proof (length_skip_ws r1) as Hw1.
    destruct (skip_ws r1) as [|c1 r2] eqn:Es1; [discriminate|].
    pose proof (length_skip_ws r2) as Hw2.
    assert (Hv : scan_once fuel depth (skip_ws r2) <> Deep)
      by (apply IHs; simpl in *; lia).
    assert (Hrest : forall val r4,
               scan_once fuel depth (skip_ws r2) = Got val r4 ->
               match skip_ws r4 with
               | String "}" r6 => Got (JObject (dict_set pairs key val)) r6
               | String "," r6 =>
                   object_loop fuel depth (dict_set pairs key val) (skip_ws r6)
               | r5 => Bad "Expecting ',' delimiter" (String.length r5)
               end <> Deep).
    { intros val r4 Hs. apply Ls in Hs. pose proof (length_skip_ws r4) as Hw4.
      destruct (skip_ws r4) as [|c4 r6] eqn:Es4; [discriminate|].
      pose proof (length_skip_ws r6) as Hw6.
      assert (Ho : object_loop fuel depth (dict_set pairs key val) (skip_ws r6) <> Deep)
        by (apply IHo; simpl in *; lia).
      repeat (break_match; try discriminate; subst); exact Ho. }
    destruct (scan_once fuel depth (skip_ws r2)) as [val r4| | | |] eqn:E2.
    2-4: repeat (break_match; try discriminate).
    2: congruence.
    specialize (Hrest val r4 eq_refl).
    repeat (break_match; try discriminate; subst); exact Hrest.
  - intros depth items s Hf. cbn [array_loop].
    assert (Hv : scan_once fuel depth s <> Deep) by (apply IHs; lia).
    destruct (scan_once fuel depth s) as [val r1| | | |] eqn:E1;
      try discriminate; [|congruence].
    apply Ls in E1. pose proof (length_skip_ws r1) as Hw1.
    destruct (skip_ws r1) as [|c1 r2] eqn:Es1; [discriminate|].
    pose proof (length_skip_ws r2) as Hw2.
    assert (Ho : array_loop fuel depth (items ++ [val]) (skip_ws r2) <> Deep)
      by (apply IHa; simpl in *; lia).
    repeat (break_match; try discriminate; subst); exact Ho.
Qed.

(** No scan gives the exception that stands for want of fuel: it is of a
    class that the decoder does not raise. *)
Lemma scanstring_no_exception (n : nat) :
  forall s b acc e, (String.length s <= n)%nat -> scanstring b acc s <> Fails e.
Proof.
  induction n as [|n IH]; intros s b acc e Hn.
  - destruct s; [discriminate|simpl in Hn; lia].
  - destruct s as [|c s']; [discriminate|]. cbn [scanstring].
    repeat (break_match; try discriminate; subst);
      apply IH; simpl in *; lia.
Qed.

Lemma scanstring_class (s : string) (b : nat) (acc : string) (e : exn) :
  scanstring b acc s = Fails e -> exn_class e <> "RuntimeError".
Proof.
  intros H. now apply (scanstring_no_exception _ _ _ _ _ (Nat.le_refl _)) in H.
Qed.

Lemma match_number_class (s r : string) (e : exn) :
  match_number s = Some (Raise e, r) -> exn_class e = "ValueError".
Proof.
  unfold match_number.
  repeat (break_match; try discriminate; subst);
    intros H; injection H as <- _; reflexivity.
Qed.

Lemma scans_class (fuel : nat) :
  (forall depth s e, scan_once fuel depth s = Fails e -> exn_class e <> "RuntimeError")
  /\ (forall depth pairs s e,
        object_loop fuel depth pairs s = Fails e -> exn_class e <> "RuntimeError")
  /\ (forall depth items s e,
        array_loop fuel depth items s = Fails e -> exn_class e <> "RuntimeError").
Proof.
  induction fuel as [|fuel (IHs & IHo & IHa)]; [repeat split; discriminate|].
  split; [|split].
  - intros depth s e. cbn [scan_once]. destruct s as [|c s']; [discriminate|].
    destruct (Ascii.eqb c dq).
    { destruct (scanstring _ _ s') as [a rest| | | |] eqn:E; try discriminate.
      apply scanstring_class in E. intros H; injection H as <-. exact E. }
    destruct (Ascii.eqb c "{").
    { destruct depth as [|depth']; [intros H; injection H as <-; discriminate|].
      repeat (break_match; try discriminate; subst); apply IHo. }
    destruct (Ascii.eqb c "[").
    { destruct depth as [|depth']; [intros H; injection H as <-; discriminate|].
      repeat (break_match; try discriminate; subst); apply IHa. }
    destruct (match_constant constants (String c s')) as [[v0 r0]|]; [discriminate|].
    destruct (match_number (String c s')) as [[[v0|e0] r0]|] eqn:En; try discriminate.
    apply match_number_class in En. intros H; injection H as <-. congruence.
  - intros depth pairs s e. cbn [object_loop]. destruct s as [|c s']; [discriminate|].
    destruct (Ascii.eqb c dq); [|discriminate].
    destruct (scanstring _ _ s') as [key r1| | | |] eqn:E1; try discriminate.
    2:{ apply scanstring_class in E1. intros H; injection H as <-. exact E1. }
    destruct (skip_ws r1) as [|c1 r2] eqn:Es1; [discriminate|].
    assert (Hrest : forall val r4,
               match skip_ws r4 with
               | String "}" r6 => Got (JObject (dict_set pairs key val)) r6
               | String "," r6 =>
                   object_loop fuel depth (dict_set pairs key val) (skip_ws r6)
               | r5 => Bad "Expecting ',' delimiter" (String.length r5)
               end = Fails e -> exn_class e <> "RuntimeError").
    { intros val r4. destruct (skip_ws r4) as [|c4 r6]; [discriminate|].
      repeat (break_match; try discriminate; subst); apply IHo. }
    destruct (scan_once fuel depth (skip_ws r2)) as [val r4| | | |] eqn:E2.
    2-3,5: repeat (break_match; try discriminate).
    + specialize (Hrest val r4).
      repeat (break_match; try discriminate; subst); exact Hrest.
    + apply IHs in E2.
      repeat (break_match; try discriminate; subst);
        intros H; injection H as <-; exact E2.
  - intros depth items s e. cbn [array_loop].
    destruct (scan_once fuel depth s) as [val r1| | | |] eqn:E1; try discriminate.
    + destruct (skip_ws r1) as [|c1 r2]; [discriminate|].
      repeat (break_match; try discriminate; subst); apply IHa.
    + apply IHs in E1. intros H; injection H as <-. exact E1.
Qed.

(** [loads] gives its scan enough fuel: it never raises for want of it. *)
Lemma loads_has_fuel (budget : nat) (s : string) : loads budget s <> Raise out_of_fuel.
Proof.
  unfold loads.
  pose proof (proj1 (scans_within_fuel (2 * String.length s + 2)) budget (skip_ws s)) as H.
  pose proof (proj1 (scans_class (2 * String.length s + 2)) budget (skip_ws s)) as Hc.
  pose proof (length_skip_ws s) as Hw.
  destruct (scan_once _ _ (skip_ws s)) as [v r| | | |];
    [destruct (is_empty (skip_ws r))| | | |]; try discriminate.
  - intros E; injection E as ->. now apply (Hc out_of_fuel).
  - intros _. apply H; [lia|reflexivity].
Qed.

(** The limits of the interpreter, as the decoder meets them: a value of
    [budget] arrays or objects one inside the other is decoded and one more
    level raises [RecursionError]; an integer literal of 4300 digits is
    decoded and one more digit raises [ValueError]. *)
Lemma loads_limits :
  (forall s, loads 0 (String "[" s) = Raise (recursion_error "array"))
  /\ (forall s, loads 0 (String "{" s) = Raise (recursion_error "object"))
  /\ loads 3 (Scenario.nested 3) = Ok (JArray [JArray [JArray [JInt 0]]])
  /\ loads 3 (Scenario.nested 4) = Raise (recursion_error "array")
  /\ loads 1 "{}" = Ok (JObject [])
  /\ (exists n, loads Scenario.budget (Scenario.sevens 4300) = Ok (JInt n))
  /\ loads Scenario.budget (Scenario.sevens 4301) = Raise (int_limit_error 4301)
  /\ exn_class (int_limit_error 4301) = "ValueError"
  /\ (exists x, loads Scenario.budget (Scenario.sevens 4301 ++ ".5") = Ok (JFloat x)).
Proof.
  split; [|split; [|split; [|split; [|split; [|split; [|split; [|split]]]]]]].
  - intros s. unfold loads. change (skip_ws (String "[" s)) with (String "[" s).
    destruct (2 * String.length (String "[" s) + 2)%nat eqn:E; [lia|]. reflexivity.
  - intros s. unfold loads. change (skip_ws (String "{" s)) with (String "{" s).
    destruct (2 * String.length (String "{" s) + 2)%nat eqn:E; [lia|]. reflexivity.
  - vm_compute; reflexivity.
  - vm_compute; reflexivity.
  - vm_compute; reflexivity.
  - eexists. vm_compute. reflexivity.
  - vm_compute; reflexivity.
  - reflexivity.
  - eexists. vm_compute. reflexivity.
Qed.

End DecoderDepth.

(** ** Slices of a response *)

Lemma substring_none (n : nat) (s : string) : substring n 0 s = "".
Proof. revert s; induction n as [|n IH]; intros [|c s]; simpl; auto. Qed.

Lemma substring_one (n : nat) (s : string) (c : ascii) :
  String.get n s = Some c -> substring n 1 s = String c "".
Proof.
  revert s; induction n as [|n IH]; intros [|a s]; simpl; try discriminate.
  - intros E; injection E as ->. now destruct s.
  - apply IH.
Qed.

Lemma clip_bounds (n i : Z) : 0 <= n -> 0 <= clip n i <= n.
Proof.
  intros Hn. unfold clip. destruct (Z.ltb_spec i 0); lia.
Qed.

(** A slice that ends at 0 is empty. *)
Lemma slice_to_zero (s : string) (a : Z) : slice s a 0 = "".
Proof.
  unfold slice. pose proof (clip_bounds (len s) a) as Ha.
  assert (Hl : 0 <= len s) by (unfold len; lia).
  replace (clip (len s) 0) with 0 by (unfold clip; change (0 <? 0) with false; cbv iota; lia).
  replace (Z.to_nat (0 - clip (len s) a)) with 0%nat by lia.
  apply substring_none.
Qed.

(** [rfind] gives -1 or the index of an occurrence. *)
Lemma rfind_from_spec (c : ascii) (s : string) (i : Z) :
  rfind_from c i s = -1
  \/ (i <= rfind_from c i s < i + len s
      /\ String.get (Z.to_nat (rfind_from c i s - i)) s = Some c).
Proof.
  revert i; induction s as [|a s IH]; intros i; cbn [rfind_from]; [now left|].
  cbv zeta. unfold len in *; cbn [String.length]. destruct (IH (i + 1)) as [E|[Hb Hg]].
  - rewrite E. change (0 <=? -1) with false. cbv iota.
    destruct (Ascii.eqb_spec a c) as [->|_]; [right|now left].
    split; [lia|]. now rewrite Z.sub_diag.
  - destruct (Z.leb_spec 0 (rfind_from c (i + 1) s)) as [H0|H0].
    + right. split; [lia|].
      replace (Z.to_nat (rfind_from c (i + 1) s - i))
        with (S (Z.to_nat (rfind_from c (i + 1) s - (i + 1)))) by lia.
      exact Hg.
    + destruct (Ascii.eqb_spec a c) as [->|_]; [right|now left].
      split; [lia|]. now rewrite Z.sub_diag.
Qed.

(** Without an opening brace or without a closing brace, the text that is
    cut out of the response is empty or a lone closing brace. *)
Lemma embedded_json_without_braces (response : string) :
  find "{" response = -1 \/ rfind "}" response = -1 ->
  Agent3Evaluator.embedded_json response = ""
  \/ Agent3Evaluator.embedded_json response = "}".
Proof.
  unfold Agent3Evaluator.embedded_json. intros [Hf|Hr].
  - rewrite Hf. unfold rfind.
    destruct (rfind_from_spec "}" response 0) as [E|[Hb Hg]].
    + rewrite E. left. apply slice_to_zero.
    + set (r := rfind_from "}" 0 response) in *.
      assert (Hl : 0 <= len response) by (unfold len; lia).
      unfold slice.
      replace (clip (len response) (-1)) with (Z.max 0 (len response - 1))
        by (unfold clip; change (-1 <? 0) with true; cbv iota; lia).
      replace (clip (len response) (r + 1)) with (r + 1)
        by (unfold clip; destruct (Z.ltb_spec (r + 1) 0); lia).
      destruct (Z.eq_dec (r + 1) (len response)) as [E|Hne].
      * right. rewrite Z.sub_0_r in Hg.
        replace (Z.to_nat (r + 1 - Z.max 0 (len response - 1))) with 1%nat by lia.
        replace (Z.to_nat (Z.max 0 (len response - 1))) with (Z.to_nat r) by lia.
        now apply substring_one.
      * left.
        replace (Z.to_nat (r + 1 - Z.max 0 (len response - 1))) with 0%nat by lia.
        apply substring_none.
  - rewrite Hr. left. apply slice_to_zero.
Qed.

Lemma loads_without_braces (budget : nat) (response : string) :
  find "{" response = -1 \/ rfind "}" response = -1 ->
  exists e, loads budget (Agent3Evaluator.embedded_json response) = Raise e.
Proof.
  intros H. destruct (embedded_json_without_braces response H) as [-> | ->];
    eexists; vm_compute; reflexivity.
Qed.

(** ** The steps of the evaluator *)

Section StepFacts.
Import Agent3Evaluator Spec.

Variable budget : nat.

Lemma final_answer_of_response_eq (response agent_2_output : string) :
  final_answer_of_response budget response agent_2_output
  = match (v <- loads budget (embedded_json response) ;;
           final_answer_fields agent_2_output v) with
    | Ok r => r
    | Raise _ => fallback_answer agent_2_output
    end.
Proof. reflexivity. Qed.

Lemma metric_of_response_eq (label name response : string) :
  metric_of_response budget label name response
  = match (v <- loads budget (embedded_json response) ;; metric_fields name v) with
    | Ok r => r
    | Raise e => error_metric label e
    end.
Proof. reflexivity. Qed.

Lemma metric_of_response_recovers (label name response : string) :
  recovers budget label name response (Ok (metric_of_response budget label name response)).
Proof.
  unfold recovers. rewrite metric_of_response_eq. split; [|split; [|split]].
  - now eexists.
  - now intros e ->.
  - intros v e Hl Hm. rewrite Hl. cbn [bind]. now rewrite Hm.
  - intros H. destruct (loads_without_braces budget response H) as (e & ->). now exists e.
Qed.

(** A decoded object whose score can be read is what the step returns,
    whatever the score and the justification are. *)
Lemma metric_of_response_decoded (label name response : string) (d : dict json)
    (x : float) :
  loads budget (embedded_json response) = Ok (JObject d) ->
  to_float (match dict_get d "score" with Some s => s | None => JFloat 0.7 end) = Ok x ->
  metric_of_response budget label name response
  = {| score := x;
       justification :=
         match dict_get d "justification" with
         | Some j => j
         | None => JString ("Unable to evaluate " ++ name)
         end |}.
Proof.
  intros Hl Hx. rewrite metric_of_response_eq, Hl. cbn [bind].
  unfold metric_fields, get. cbn [bind]. now rewrite Hx.
Qed.

Lemma final_answer_of_response_decoded (response agent_2_output : string)
    (d : dict json) (x : float) :
  loads budget (embedded_json response) = Ok (JObject d) ->
  to_float (match dict_get d "confidence_score" with
            | Some c => c
            | None => JFloat 0.8
            end) = Ok x ->
  final_answer_of_response budget response agent_2_output
  = {| final_answer :=
         match dict_get d "final_answer" with
         | Some answer => answer
         | None => JString agent_2_output
         end;
       confidence := x |}.
Proof.
  intros Hl Hx. rewrite final_answer_of_response_eq, Hl. cbn [bind].
  unfold final_answer_fields, get. cbn [bind]. now rewrite Hx.
Qed.

End StepFacts.

(** ** Binary64 arithmetic on numbers of the unit interval *)

Section Binary64Bounds.
Import Binary64 Schemas.

(** Powers of two with a variable exponent become atoms of the goal. *)
Ltac hide_powers :=
  repeat match goal with
         | |- context [2 ^ ?e] =>
             let x := fresh "pw" in set (x := 2 ^ e) in *; clearbody x
         | H : context [2 ^ ?e] |- _ =>
             let x := fresh "pw" in set (x := 2 ^ e) in *; clearbody x
         end.

Lemma fexp64 (z : Z) : fexp prec emax z = Z.max (z - 53) (-1074).
Proof. reflexivity. Qed.

Lemma digits2_pos_bounds (m : positive) :
  2 ^ (Zpos (digits2_pos m) - 1) <= Zpos m < 2 ^ Zpos (digits2_pos m).
Proof.
  induction m as [p IH|p IH|]; cbn [digits2_pos]; [| |split; [discriminate|reflexivity]].
  - rewrite Pos2Z.inj_succ, (Pos2Z.inj_xI p).
    replace (Z.succ (Zpos (digits2_pos p)) - 1) with (Z.succ (Zpos (digits2_pos p) - 1)) by lia.
    rewrite !Z.pow_succ_r by lia. hide_powers. lia.
  - rewrite Pos2Z.inj_succ, (Pos2Z.inj_xO p).
    replace (Z.succ (Zpos (digits2_pos p)) - 1) with (Z.succ (Zpos (digits2_pos p) - 1)) by lia.
    rewrite !Z.pow_succ_r by lia. hide_powers. lia.
Qed.

(** A number below a power of two has no more digits than the exponent. *)
Lemma Zdigits2_le (m k : Z) : 0 <= m -> 0 <= k -> m < 2 ^ k -> Zdigits2 m <= k.
Proof.
  intros Hm Hk Hlt. destruct m as [|p|p]; [simpl; lia| |lia].
  cbn [Zdigits2]. pose proof (digits2_pos_bounds p) as [Hlo _].
  destruct (Z.le_gt_cases (Zpos (digits2_pos p)) k) as [H|H]; [exact H|].
  assert (2 ^ k <= 2 ^ (Zpos (digits2_pos p) - 1)) by (apply Z.pow_le_mono_r; lia).
  lia.
Qed.

Lemma shifted_refl (a : shr_record) : 0 <= shr_m a -> shifted 0 a a.
Proof.
  intros H. unfold shifted. rewrite Z.pow_0_r, Z.div_1_r, Z.mod_1_r. tauto.
Qed.

Lemma shifted_trans (n1 n2 : Z) (a b c : shr_record) :
  0 <= n1 -> 0 <= n2 -> shifted n1 a b -> shifted n2 b c -> shifted (n1 + n2) a c.
Proof.
  intros H1 H2 (Hb & Hb0 & Eb) (Hc & Hc0 & Ec). unfold shifted.
  assert (P1 : 0 < 2 ^ n1) by (apply Z.pow_pos_nonneg; lia).
  assert (P2 : 0 < 2 ^ n2) by (apply Z.pow_pos_nonneg; lia).
  rewrite Z.pow_add_r by lia. split; [|split].
  - rewrite Hc, Hb. apply Z.div_div; lia.
  - exact Hc0.
  - rewrite Ec, Eb. rewrite Hb.
    assert (D : forall x, x mod 2 ^ n1 = 0 ->
                          (x / 2 ^ n1 mod 2 ^ n2 = 0 <-> x mod (2 ^ n1 * 2 ^ n2) = 0)).
    { intros x M1. apply Z.mod_divide in M1; [|lia]. destruct M1 as (k1 & ->).
      rewrite Z.div_mul by lia. split; intros M.
      - apply Z.mod_divide in M; [|lia]. destruct M as (k2 & ->).
        apply Z.mod_divide; [lia|]. exists k2. ring.
      - apply Z.mod_divide in M; [|lia]. destruct M as (k2 & K2).
        apply Z.mod_divide; [lia|]. exists k2. nia. }
    split.
    + intros ((E0 & M1) & M2). split; [exact E0|]. now apply D.
    + intros (E0 & M). assert (M1 : shr_m a mod 2 ^ n1 = 0).
      { apply Z.mod_divide in M; [|lia]. destruct M as (k & ->).
        apply Z.mod_divide; [lia|]. exists (k * 2 ^ n2). ring. }
      split; [tauto|]. now apply D.
Qed.

Lemma shr_1_shifted (a : shr_record) : 0 <= shr_m a -> shifted 1 a (shr_1 a).
Proof.
  destruct a as [m r s]. cbn [shr_m]. intros Hm. unfold shifted, is_exact.
  change (2 ^ 1) with 2.
  destruct m as [|[p|p|]|p]; try lia; cbn [shr_1 shr_m].
  - split; [reflexivity|]. split; [lia|].
    destruct r, s; simpl; split; try tauto; intros E; try discriminate E;
      destruct E as [E _]; discriminate E.
  - rewrite (Pos2Z.inj_xI p). replace (2 * Zpos p + 1) with (1 + Zpos p * 2) by lia.
    rewrite Z.div_add, Z.mod_add by lia. change (1 / 2) with 0. change (1 mod 2) with 1.
    split; [reflexivity|]. split; [lia|]. split.
    + intros E. simpl in E. destruct (r || s); discriminate.
    + intros [_ E]. discriminate E.
  - rewrite (Pos2Z.inj_xO p). replace (2 * Zpos p) with (0 + Zpos p * 2) by lia.
    rewrite Z.div_add, Z.mod_add by lia. change (0 / 2) with 0. change (0 mod 2) with 0.
    split; [reflexivity|]. split; [lia|].
    destruct r, s; simpl; split; try tauto; intros E; try discriminate E;
      destruct E as [E _]; discriminate E.
  - change (1 / 2) with 0. change (1 mod 2) with 1.
    split; [reflexivity|]. split; [lia|]. split.
    + intros E. simpl in E. destruct (r || s); discriminate.
    + intros [_ E]. discriminate E.
Qed.

Lemma iter_shr_1_shifted (p : positive) :
  forall a, 0 <= shr_m a -> shifted (Zpos p) a (iter_pos shr_1 p a).
Proof.
  induction p as [p IH|p IH|]; intros a Ha; cbn [iter_pos].
  - pose proof (shr_1_shifted a Ha) as S1.
    assert (H1 : 0 <= shr_m (shr_1 a)) by apply S1.
    pose proof (IH _ H1) as S2.
    assert (H2 : 0 <= shr_m (iter_pos shr_1 p (shr_1 a))) by apply S2.
    pose proof (IH _ H2) as S3.
    replace (Zpos p~1) with (1 + Zpos p + Zpos p) by (rewrite (Pos2Z.inj_xI p); lia).
    apply (shifted_trans (1 + Zpos p) (Zpos p) a (iter_pos shr_1 p (shr_1 a)));
      [lia|lia| |exact S3].
    apply (shifted_trans 1 (Zpos p) a (shr_1 a)); [lia|lia|exact S1|exact S2].
  - pose proof (IH _ Ha) as S1.
    assert (H1 : 0 <= shr_m (iter_pos shr_1 p a)) by apply S1.
    pose proof (IH _ H1) as S2.
    replace (Zpos p~0) with (Zpos p + Zpos p) by (rewrite (Pos2Z.inj_xO p); lia).
    apply (shifted_trans (Zpos p) (Zpos p) a (iter_pos shr_1 p a));
      [lia|lia|exact S1|exact S2].
  - now apply shr_1_shifted.
Qed.

Lemma loc_of_record_of_loc (m : Z) (l : location) :
  loc_of_shr_record (shr_record_of_loc m l) = l.
Proof. destruct l as [|[]]; reflexivity. Qed.

Lemma shr_m_record_of_loc (m : Z) (l : location) : shr_m (shr_record_of_loc m l) = m.
Proof. destruct l as [|[]]; reflexivity. Qed.

(** [shr] shifts by [n] when [n] is positive and not at all otherwise. *)
Lemma shr_shifted (m e n : Z) (l : location) :
  0 <= m ->
  exists k, 0 <= k /\ k = Z.max n 0
            /\ snd (shr (shr_record_of_loc m l) e n) = e + k
            /\ shifted k (shr_record_of_loc m l) (fst (shr (shr_record_of_loc m l) e n)).
Proof.
  intros Hm. assert (H0 : 0 <= shr_m (shr_record_of_loc m l))
    by now rewrite shr_m_record_of_loc.
  destruct n as [|p|p]; cbn [shr fst snd].
  - exists 0. split; [lia|]. split; [reflexivity|]. split; [lia|now apply shifted_refl].
  - exists (Zpos p). split; [lia|]. split; [reflexivity|].
    split; [reflexivity|now apply iter_shr_1_shifted].
  - exists 0. split; [lia|]. split; [reflexivity|]. split; [lia|now apply shifted_refl].
Qed.

Lemma round_nearest_even_bounds (m : Z) (l : location) :
  m <= round_nearest_even m l <= m + 1 /\ (l = loc_Exact -> round_nearest_even m l = m).
Proof.
  destruct l as [|[]]; simpl; try (split; [lia|auto; discriminate]).
  destruct (Z.even m); split; try lia; discriminate.
Qed.

(** Rounding keeps a number that is not above a bound [B1] in 1..4 not
    above it: [mx * 2^ex], exact or not, is the number that is rounded. *)
Lemma binary_round_aux_below (mx ex : Z) (lx : location) (B1 : Z) :
  0 <= mx -> -1074 <= ex <= 0 -> 1 <= B1 <= 4 ->
  (lx = loc_Exact -> mx <= B1 * 2 ^ (- ex)) ->
  (lx <> loc_Exact -> mx + 1 <= B1 * 2 ^ (- ex)) ->
  below B1 (binary_round_aux prec emax false mx ex lx).
Proof.
  intros Hmx Hex HB Hexact Hinexact.
  assert (Pex : 0 < 2 ^ (- ex)) by (apply Z.pow_pos_nonneg; lia).
  assert (Hle : mx <= B1 * 2 ^ (- ex))
    by (destruct lx; [now apply Hexact|assert (loc_Inexact c <> loc_Exact) by discriminate; specialize (Hinexact H); lia]).
  assert (Hd : Zdigits2 mx <= 3 - ex).
  { apply Zdigits2_le; [lia|lia|].
    replace (3 - ex) with (3 + - ex) by lia. rewrite Z.pow_add_r by lia.
    change (2 ^ 3) with 8. nia. }
  unfold binary_round_aux, shr_fexp.
  destruct (shr_shifted mx ex (fexp prec emax (Zdigits2 mx + ex) - ex) lx Hmx)
    as (k & Hk0 & Hk & He' & (Hm1 & Hm10 & Hx1)).
  destruct (shr (shr_record_of_loc mx lx) ex _) as [mrs' e']. cbn [fst snd] in *.
  rewrite shr_m_record_of_loc in Hm1, Hx1. unfold is_exact in Hx1.
  rewrite loc_of_record_of_loc in Hx1.
  rewrite fexp64 in Hk.
  assert (He0 : e' <= 0) by lia.
  assert (Pk : 0 < 2 ^ k) by (apply Z.pow_pos_nonneg; lia).
  assert (Pe' : 0 < 2 ^ (- e')) by (apply Z.pow_pos_nonneg; lia).
  assert (HBx : B1 * 2 ^ (- ex) = B1 * 2 ^ (- e') * 2 ^ k).
  { replace (- ex) with (- e' + k) by lia. rewrite Z.pow_add_r by lia. ring. }
  set (K := B1 * 2 ^ (- e')) in *.
  set (rounded := round_nearest_even (shr_m mrs') (loc_of_shr_record mrs')).
  assert (Hr : shr_m mrs' <= rounded <= K).
  { destruct (round_nearest_even_bounds (shr_m mrs') (loc_of_shr_record mrs'))
      as ((R1 & R2) & R3). fold rounded in R1, R2, R3. split; [exact R1|].
    destruct (loc_of_shr_record mrs') as [|c] eqn:El.
    - rewrite (R3 eq_refl), Hm1. apply Z.div_le_upper_bound; lia.
    - assert (Hlt : mx < K * 2 ^ k).
      { destruct lx as [|c'].
        - assert (Hnd : mx mod 2 ^ k <> 0).
          { intros M. assert (E : loc_Inexact c = loc_Exact) by (apply Hx1; auto).
            discriminate E. }
          assert (mx <> K * 2 ^ k) by (intros ->; apply Hnd, Z.mod_mul; lia).
          lia.
        - assert (loc_Inexact c' <> loc_Exact) by discriminate. specialize (Hinexact H). lia. }
      assert (shr_m mrs' < K) by (rewrite Hm1; apply Z.div_lt_upper_bound; lia).
      lia. }
  assert (Hr0 : 0 <= rounded) by lia.
  destruct (shr_shifted rounded e' (fexp prec emax (Zdigits2 rounded + e') - e')
              loc_Exact Hr0) as (k2 & Hk20 & Hk2 & He'' & (Hm2 & Hm20 & _)).
  destruct (shr (shr_record_of_loc rounded loc_Exact) e' _) as [mrs'' e''].
  cbn [fst snd] in *. rewrite shr_m_record_of_loc in Hm2.
  assert (Pk2 : 0 < 2 ^ k2) by (apply Z.pow_pos_nonneg; lia).
  destruct (shr_m mrs'') as [|m|m] eqn:Em; [exact I| |lia].
  assert (Hval : Zpos m * 2 ^ (e'' + 1074) <= B1 * 2 ^ 1074).
  { assert (Zpos m * 2 ^ k2 <= rounded)
      by (rewrite Hm2, Z.mul_comm; apply Z.mul_div_le; lia).
    replace (e'' + 1074) with (k2 + (e' + 1074)) by lia.
    rewrite Z.pow_add_r by lia.
    assert (P : 0 < 2 ^ (e' + 1074)) by (apply Z.pow_pos_nonneg; lia).
    replace (B1 * 2 ^ 1074) with (K * 2 ^ (e' + 1074)).
    - nia.
    - unfold K. rewrite <- Z.mul_assoc, <- Z.pow_add_r by lia. f_equal. f_equal. lia. }
  assert (Hup : e'' <= 2).
  { assert (P : 0 < 2 ^ (e'' + 1074)) by (apply Z.pow_pos_nonneg; lia).
    assert (H2 : 2 ^ (e'' + 1074) <= 2 ^ 1076).
    { replace (2 ^ 1076) with (4 * 2 ^ 1074) by (vm_compute; reflexivity).
      assert (0 < 2 ^ 1074) by (apply Z.pow_pos_nonneg; lia). nia. }
    apply Z.pow_le_mono_r_iff in H2; lia. }
  replace (e'' <=? emax - prec) with true
    by (symmetry; apply Z.leb_le; change (emax - prec) with 971; lia).
  simpl. split; [lia|exact Hval].
Qed.

Lemma below_mono (B1 B2 : Z) (y : spec_float) : B1 <= B2 -> below B1 y -> below B2 y.
Proof.
  intros HB. destruct y as [s|s| |[|] m e]; cbn [below]; auto. intros [He Hv]. split; [exact He|].
  assert (0 < 2 ^ 1074) by (apply Z.pow_pos_nonneg; lia). nia.
Qed.

(** The exponent and the mantissa of a valid number. *)
Lemma valid_finite (s : bool) (m : positive) (e : Z) :
  valid_binary (S754_finite s m e) = true ->
  -1074 <= e /\ Zpos m < 2 ^ 53 /\ (-1074 < e -> 2 ^ 52 <= Zpos m).
Proof.
  unfold SpecFloat.valid_binary, bounded, canonical_mantissa. intros H.
  apply andb_prop in H. destruct H as [H _]. apply Z.eqb_eq in H.
  rewrite fexp64 in H. pose proof (digits2_pos_bounds m) as [Hlo Hhi].
  split; [lia|]. split.
  - assert (Zpos (digits2_pos m) <= 53) by lia.
    assert (2 ^ Zpos (digits2_pos m) <= 2 ^ 53) by (apply Z.pow_le_mono_r; lia). lia.
  - intros He. assert (E : Zpos (digits2_pos m) = 53) by lia. rewrite E in Hlo. exact Hlo.
Qed.

(** A valid number that is not above a bound up to 4 has an exponent that
    is not positive. *)
Lemma below_exponent (B1 : Z) (m : positive) (e : Z) :
  B1 <= 4 -> valid_binary (S754_finite false m e) = true ->
  below B1 (S754_finite false m e) -> e <= 0.
Proof.
  intros HB Hv [He Hb]. destruct (valid_finite _ _ _ Hv) as (_ & _ & Hn).
  destruct (Z.le_gt_cases e 0) as [H|H]; [exact H|exfalso].
  specialize (Hn ltac:(lia)).
  assert (P : 2 ^ 1075 <= 2 ^ (e + 1074)) by (apply Z.pow_le_mono_r; lia).
  assert (Q : 2 ^ 52 * 2 ^ 1075 <= Zpos m * 2 ^ (e + 1074)).
  { apply Z.mul_le_mono_nonneg; try lia; apply Z.pow_nonneg; lia. }
  assert (R : B1 * 2 ^ 1074 < 2 ^ 52 * 2 ^ 1075).
  { apply Z.le_lt_trans with (4 * 2 ^ 1074).
    - apply Z.mul_le_mono_nonneg_r; [apply Z.pow_nonneg|]; lia.
    - vm_compute. reflexivity. }
  lia.
Qed.

(** Between zero and one, in the order of binary64, is on the grid
    between zero and one. *)
Lemma leb_below (y : spec_float) :
  valid_binary y = true ->
  SFleb SF_zero y = true -> SFleb y SF_one = true -> below 1 y.
Proof.
  intros Hv H0 H1. destruct y as [s|s| |s m e]; cbn [below]; auto.
  - destruct s; discriminate.
  - discriminate.
  - destruct s; [discriminate|]. destruct (valid_finite _ _ _ Hv) as (He & Hm & _).
    split; [exact He|]. unfold SFleb, SF_one in H1. cbn [SFcompare] in H1.
    destruct (Z.compare_spec e (-52)) as [->|Hlt|Hgt]; [| |discriminate].
    + assert (Hc : (m <= 4503599627370496)%positive).
      { unfold Pos.le, Pos.compare.
        destruct (Pos.compare_cont Eq m 4503599627370496); congruence. }
      assert (Zpos m <= 2 ^ 52) by (apply Pos2Z.pos_le_pos in Hc; exact Hc).
      clear Hc H1.
      change (-52 + 1074) with 1022. change (1 * 2 ^ 1074) with (2 ^ 52 * 2 ^ 1022).
      apply (Z.mul_le_mono_nonneg_r (Zpos m) (2 ^ 52) (2 ^ 1022));
        [apply Z.pow_nonneg; lia|exact H].
    + assert (P : 2 ^ (e + 1074) <= 2 ^ 1021) by (apply Z.pow_le_mono_r; lia).
      assert (P0 : 0 < 2 ^ (e + 1074)) by (apply Z.pow_pos_nonneg; lia).
      apply Z.le_trans with (2 ^ 53 * 2 ^ 1021); [|vm_compute; discriminate].
      apply Z.mul_le_mono_nonneg; lia.
Qed.

Lemma compare_cont_Z (m p : positive) :
  Pos.compare_cont Eq m p = (Zpos m ?= Zpos p).
Proof. reflexivity. Qed.

Lemma below_leb (y : spec_float) :
  valid_binary y = true -> below 1 y ->
  SFleb SF_zero y = true /\ SFleb y SF_one = true.
Proof.
  intros Hv Hb. destruct y as [s|s| |s m e]; cbn [below] in Hb.
  - split; [reflexivity|]. now destruct s.
  - destruct Hb.
  - destruct Hb.
  - destruct s; [destruct Hb|]. split; [reflexivity|].
    destruct Hb as [He Hb]. destruct (valid_finite _ _ _ Hv) as (_ & _ & Hn).
    unfold SFleb, SF_one. cbn [SFcompare].
    destruct (Z.compare_spec e (-52)) as [->|Hlt|Hgt]; [|reflexivity|exfalso].
    + change (-52 + 1074) with 1022 in Hb.
      change (1 * 2 ^ 1074) with (2 ^ 52 * 2 ^ 1022) in Hb.
      assert (Zpos m <= 2 ^ 52).
      { apply (Z.mul_le_mono_pos_r (Zpos m) (2 ^ 52) (2 ^ 1022));
          [apply Z.pow_pos_nonneg; lia|exact Hb]. }
      clear Hb Hn Hv. rewrite compare_cont_Z.
      destruct (Z.compare_spec (Zpos m) (Zpos 4503599627370496)) as [_|_|Hgt];
        [reflexivity|reflexivity|].
      exfalso. apply (Z.lt_irrefl (Zpos m)). eapply Z.le_lt_trans; [exact H|exact Hgt].
    + specialize (Hn ltac:(lia)).
      assert (P : 2 ^ 1023 <= 2 ^ (e + 1074)) by (apply Z.pow_le_mono_r; lia).
      assert (Q : 2 ^ 52 * 2 ^ 1023 <= Zpos m * 2 ^ (e + 1074)).
      { apply Z.mul_le_mono_nonneg; try lia; apply Z.pow_nonneg; lia. }
      assert (R : 1 * 2 ^ 1074 < 2 ^ 52 * 2 ^ 1023) by (vm_compute; reflexivity).
      lia.
Qed.

Lemma iter_xO (d m : positive) : Zpos (Pos.iter xO m d) = Zpos m * 2 ^ Zpos d.
Proof.
  induction d as [|d IH] using Pos.peano_ind.
  - cbn [Pos.iter]. rewrite (Pos2Z.inj_xO m). change (2 ^ 1) with 2. lia.
  - rewrite Pos.iter_succ, (Pos2Z.inj_xO (Pos.iter xO m d)), IH, Pos2Z.inj_succ.
    rewrite Z.pow_succ_r by lia. ring.
Qed.

(** [shl_align] lowers the exponent to [e'] when that is lower, and keeps
    the number. *)
Lemma shl_align_spec (m : positive) (e e' : Z) :
  snd (shl_align m e e') = Z.min e e'
  /\ Zpos (fst (shl_align m e e')) = Zpos m * 2 ^ (e - Z.min e e').
Proof.
  unfold shl_align. destruct (e' - e) as [|d|d] eqn:E; cbn [fst snd].
  - replace (Z.min e e') with e by lia. rewrite Z.sub_diag. split; lia.
  - replace (Z.min e e') with e by lia. rewrite Z.sub_diag. split; lia.
  - replace (Z.min e e') with e' by lia. split; [reflexivity|].
    rewrite iter_xO. f_equal. f_equal. lia.
Qed.

(** The bound of a number on the grid, at a lower exponent. *)
Lemma below_scaled (B1 : Z) (m : positive) (e e' : Z) :
  -1074 <= e' <= e -> below B1 (S754_finite false m e) ->
  Zpos m * 2 ^ (e - e') * 2 ^ (e' + 1074) <= B1 * 2 ^ 1074.
Proof.
  intros He [_ Hb]. rewrite <- Z.mul_assoc, <- Z.pow_add_r by lia.
  replace (e - e' + (e' + 1074)) with (e + 1074) by lia. exact Hb.
Qed.

Lemma binary_round_below (B1 : Z) (m : positive) (e : Z) :
  1 <= B1 <= 4 -> -1074 <= e <= 0 ->
  Zpos m * 2 ^ (e + 1074) <= B1 * 2 ^ 1074 ->
  below B1 (binary_round prec emax false m e).
Proof.
  intros HB He Hb. unfold binary_round.
  destruct (shl_align_spec m e (fexp prec emax (Zpos (digits2_pos m) + e))) as [H2 H1].
  destruct (shl_align m e _) as [mz ez]. cbn [fst snd] in H1, H2.
  rewrite fexp64 in H2, H1.
  set (f := Z.max (Zpos (digits2_pos m) + e - 53) (-1074)) in *.
  assert (Hez : -1074 <= ez <= e) by lia.
  apply binary_round_aux_below; [lia|lia|exact HB| |intros H; now elim H].
  intros _. rewrite H1, <- H2.
  assert (P : 0 < 2 ^ (ez + 1074)) by (apply Z.pow_pos_nonneg; lia).
  assert (Q : Zpos m * 2 ^ (e - ez) * 2 ^ (ez + 1074) <= B1 * 2 ^ (- ez) * 2 ^ (ez + 1074)).
  { rewrite <- !Z.mul_assoc, <- !Z.pow_add_r by lia.
    replace (e - ez + (ez + 1074)) with (e + 1074) by lia.
    replace (- ez + (ez + 1074)) with 1074 by lia. exact Hb. }
  apply Z.mul_le_mono_pos_r in Q; [exact Q|exact P].
Qed.

(** The sum of two numbers on the grid, not above [B1] and [B2], is on the
    grid and not above [B1 + B2]. *)
Lemma add_below (B1 B2 : Z) (x y : spec_float) :
  1 <= B1 -> 1 <= B2 -> B1 + B2 <= 4 ->
  valid_binary x = true -> valid_binary y = true ->
  below B1 x -> below B2 y -> below (B1 + B2) (SFadd prec emax x y).
Proof.
  intros H1 H2 H4 Vx Vy Bx By.
  destruct x as [sx|sx| |sx mx ex]; cbn [below] in Bx; try (now destruct Bx);
    destruct y as [sy|sy| |sy my ey]; cbn [below] in By; try (now destruct By).
  - cbn [SFadd]. now destruct sx, sy.
  - cbn [SFadd]. apply below_mono with B2; [lia|]. cbn [below]. exact By.
  - destruct sx; [now destruct Bx|].
    cbn [SFadd]. apply below_mono with B1; [lia|]. cbn [below]. exact Bx.
  - destruct sx; [now destruct Bx|]. destruct sy; [now destruct By|].
    assert (Ex : ex <= 0) by (apply (below_exponent B1 mx); [lia|exact Vx|exact Bx]).
    assert (Ey : ey <= 0) by (apply (below_exponent B2 my); [lia|exact Vy|exact By]).
    cbn [SFadd cond_Zopp].
    destruct (shl_align_spec mx ex (Z.min ex ey)) as [_ Hx].
    destruct (shl_align_spec my ey (Z.min ex ey)) as [_ Hy].
    set (ez := Z.min ex ey) in *.
    replace (Z.min ex ez) with ez in Hx by lia.
    replace (Z.min ey ez) with ez in Hy by lia.
    set (mx' := fst (shl_align mx ex ez)) in *.
    set (my' := fst (shl_align my ey ez)) in *.
    assert (Lx : -1074 <= ex) by apply Bx. assert (Ly : -1074 <= ey) by apply By.
    pose proof (below_scaled B1 mx ex ez ltac:(lia) Bx) as Sx.
    pose proof (below_scaled B2 my ey ez ltac:(lia) By) as Sy.
    rewrite <- Hx in Sx. rewrite <- Hy in Sy.
    change (Zpos mx' + Zpos my') with (Zpos (mx' + my')).
    cbn [binary_normalize]. apply binary_round_below; [lia|lia|].
    rewrite Pos2Z.inj_add. clearbody mx' my'. clear Hx Hy Bx By Vx Vy.
    hide_powers. lia.
Qed.

(** A third of a number on the grid that is not above three is on the grid
    and not above one. *)
Lemma div_three_below (x : spec_float) :
  valid_binary x = true -> below 3 x -> below 1 (SFdiv prec emax x SF_three).
Proof.
  intros Vx Bx. destruct x as [sx|sx| |sx mx ex]; cbn [below] in Bx;
    [exact I|destruct Bx|destruct Bx|].
  - destruct sx; [now destruct Bx|].
    assert (Ex : ex <= 0) by (apply (below_exponent 3 mx); [lia|exact Vx|exact Bx]).
    destruct (valid_finite _ _ _ Vx) as (Lx & Hm & _).
    unfold SFdiv, SF_three, SFdiv_core_binary. cbn [xorb].
    change (Zdigits2 6755399441055744) with 53.
    rewrite fexp64.
    assert (Hd : Zdigits2 (Zpos mx) <= 53) by (apply Zdigits2_le; lia).
    assert (Hd0 : 0 <= Zdigits2 (Zpos mx)) by (cbn [Zdigits2]; lia).
    set (e' := Z.min (Z.max (Zdigits2 (Zpos mx) + ex - (53 + -51) - 53) (-1074)) (ex - -51)).
    assert (He' : -1074 <= e' <= 0) by lia.
    assert (Hs : 0 <= ex - -51 - e') by lia.
    set (s := ex - -51 - e') in *.
    assert (Hm' : match s with Z.pos _ => Z.shiftl (Zpos mx) s | 0 => Zpos mx | Z.neg _ => 0 end
                  = Zpos mx * 2 ^ s).
    { destruct s as [|p|p] eqn:Es; [rewrite Z.pow_0_r; lia| |lia].
      apply Z.shiftl_mul_pow2. lia. }
    rewrite Hm'. set (m' := Zpos mx * 2 ^ s).
    assert (Hb : m' <= 6755399441055744 * 2 ^ (- e')).
    { destruct Bx as [_ Bx].
      assert (P : 0 < 2 ^ (e' + 1074)) by (apply Z.pow_pos_nonneg; lia).
      assert (Q : m' * 2 ^ (e' + 1074) <= 6755399441055744 * 2 ^ (- e') * 2 ^ (e' + 1074)).
      { unfold m'. rewrite <- !Z.mul_assoc, <- !Z.pow_add_r by lia.
        replace (s + (e' + 1074)) with (51 + (ex + 1074)) by lia.
        replace (- e' + (e' + 1074)) with 1074 by lia.
        rewrite Z.pow_add_r by lia.
        change (2 ^ 51) with 2251799813685248. clear Hm' Hd Hd0 Hm Vx.
        hide_powers. lia. }
      apply Z.mul_le_mono_pos_r in Q; [exact Q|exact P]. }
    assert (Hm0 : 0 <= m') by (unfold m'; apply Z.mul_nonneg_nonneg; [lia|apply Z.pow_nonneg; lia]).
    pose proof (Z_div_mod m' 6755399441055744 eq_refl) as Hqr.
    destruct (Z.div_eucl m' 6755399441055744) as [q r]. destruct Hqr as [Hq Hr].
    assert (P : 0 < 2 ^ (- e')) by (apply Z.pow_pos_nonneg; lia).
    unfold new_location. change (Z.even 6755399441055744) with true. cbv iota.
    unfold new_location_even.
    clearbody m'. clear Hm' Hm Vx Bx.
    apply binary_round_aux_below; [nia|exact He'|lia| |].
    + intros _. hide_powers. nia.
    + intros Hne. destruct (Z.eqb_spec r 0) as [->|Hr0]; [now elim Hne|].
      hide_powers. nia.
Qed.

Lemma in_unit_below (x : float) : in_unit x = true <-> below 1 (Prim2SF x).
Proof.
  unfold in_unit. rewrite !leb_spec.
  change (Prim2SF 0) with SF_zero. change (Prim2SF 1) with SF_one.
  pose proof (Prim2SF_valid x) as Hv. split.
  - intros H. apply andb_prop in H. destruct H as [H0 H1]. now apply leb_below.
  - intros H. destruct (below_leb _ Hv H) as [H0 H1]. now rewrite H0, H1.
Qed.

(** The mean of three numbers of [0, 1], as binary64 computes it, is in
    [0, 1]. *)
Lemma mean_in_unit (g a r : float) :
  in_unit g = true -> in_unit a = true -> in_unit r = true ->
  in_unit ((g + a + r) / 3) = true.
Proof.
  rewrite !in_unit_below. intros Hg Ha Hr.
  rewrite div_spec. change (Prim2SF 3) with SF_three.
  apply div_three_below; [apply Prim2SF_valid|].
  rewrite add_spec. change 3 with (2 + 1).
  apply add_below; [lia|lia|lia|apply Prim2SF_valid|apply Prim2SF_valid| |exact Hr].
  rewrite add_spec. change 2 with (1 + 1).
  apply add_below; [lia|lia|lia|apply Prim2SF_valid|apply Prim2SF_valid|exact Hg|exact Ha].
Qed.

End Binary64Bounds.

(** ** Comparisons of binary64 numbers *)

Lemma SFcompare_refl (x : spec_float) :
  SFcompare x x <> None -> SFcompare x x = Some Eq.
Proof.
  destruct x as [s|s| |s m e]; simpl; try congruence.
  - now destruct s.
  - intros _. rewrite Z.compare_refl, Pos.compare_cont_refl. now destruct s.
Qed.

(** A number that passes a comparison with [<=] is equal to itself. *)
Lemma leb_eqb_refl (x y : float) : (x <=? y)%float = true -> (y =? y)%float = true.
Proof.
  rewrite leb_spec, eqb_spec. unfold SFleb, SFeqb. intros H.
  rewrite SFcompare_refl; [reflexivity|].
  destruct (Prim2SF x), (Prim2SF y); simpl in *; congruence.
Qed.

(** Numbers that [==] holds of are not in the relation [<]. *)
Lemma eqb_not_ltb (x y : float) : (x =? y)%float = true -> (x <? y)%float = false.
Proof.
  rewrite eqb_spec, ltb_spec. unfold SFeqb, SFltb.
  now destruct (SFcompare (Prim2SF x) (Prim2SF y)) as [[]|].
Qed.

Lemma SFcompare_antisym (x y : spec_float) :
  SFcompare y x = option_map CompOpp (SFcompare x y).
Proof.
  destruct x as [sx|sx| |sx mx ex], y as [sy|sy| |sy my ey]; simpl; try reflexivity;
    try (now destruct sx); try (now destruct sy); try (now destruct sx, sy).
  rewrite (Z.compare_antisym ex ey), (ZC4 my mx).
  destruct sx, sy; try reflexivity; destruct (ex ?= ey); simpl; try reflexivity;
    now rewrite ?CompOpp_involutive.
Qed.

(** Of two numbers, [x < y] holds exactly when [y <= x] does not. *)
Lemma ltb_negb_leb (x y : float) :
  (x =? x)%float = true -> (y =? y)%float = true ->
  (x <? y)%float = negb (y <=? x)%float.
Proof.
  rewrite !eqb_spec, ltb_spec, leb_spec. unfold SFeqb, SFltb, SFleb.
  rewrite (SFcompare_antisym (Prim2SF x) (Prim2SF y)).
  destruct (SFcompare (Prim2SF x) (Prim2SF y)) as [[]|] eqn:E; try reflexivity.
  destruct (Prim2SF x), (Prim2SF y); simpl in *; discriminate.
Qed.

Section EvaluatorClaims.
Import Agent3Evaluator Spec.

Variable simple_prompt : string -> string -> float -> result string.
Variable py_str : json -> string.
Variable budget : nat.

Lemma combine_results_spec (far : FinalAnswer) (gr ar rr : MetricResult)
    (docs : list DocumentText) (ev : Evaluation) :
  combine_results py_str far gr ar rr docs = Ok ev ->
  let m := metrics ev in
  groundedness m = score gr /\ accuracy m = score ar /\ relevance m = score rr
  /\ in_unit (groundedness m) = true /\ in_unit (accuracy m) = true
  /\ in_unit (relevance m) = true /\ in_unit (overall_score m) = true
  /\ overall_score m = ((score gr + score ar + score rr) / 3)%float
  /\ needs_review m = (overall_score m <? 0.8)%float
  /\ sources_used m = len_list docs
  /\ confidence_score m = confidence far.
Proof.
  unfold combine_results, Metrics_new.
  destruct (_ && _)%bool eqn:Hv; cbn [bind]; [|discriminate].
  intros E; injection E as <-. cbn [metrics].
  repeat (apply andb_prop in Hv; destruct Hv as [Hv ?]).
  cbn. repeat split; auto.
Qed.

(** What [_evaluate_answers] does once its four steps have returned: the
    three previews of the justifications, and then the construction of the
    metrics. *)
Lemma evaluate_answers_steps (a1 a2 prompt : string) (docs : list DocumentText)
    (far : FinalAnswer) (gr ar rr : MetricResult) :
  _determine_final_answer simple_prompt budget a1 a2 prompt = Ok far ->
  _evaluate_groundedness simple_prompt py_str budget (final_answer far) prompt
    (doc_context_of docs) a1 = Ok gr ->
  _evaluate_accuracy simple_prompt py_str budget (final_answer far) prompt
    (doc_context_of docs) a1 = Ok ar ->
  _evaluate_relevance simple_prompt py_str budget (final_answer far) prompt = Ok rr ->
  _evaluate_answers simple_prompt py_str budget a1 a2 prompt docs
  = (_ <- prefix_of 100 (justification gr) ;;
     _ <- prefix_of 100 (justification ar) ;;
     _ <- prefix_of 100 (justification rr) ;;
     combine_results py_str far gr ar rr docs).
Proof.
  intros Hf Hg Ha Hr. unfold _evaluate_answers. cbv zeta.
  rewrite Hf. cbn [bind]. rewrite Hg. cbn [bind].
  destruct (prefix_of 100 (justification gr)); cbn [bind]; [|reflexivity].
  rewrite Ha. cbn [bind].
  destruct (prefix_of 100 (justification ar)); cbn [bind]; [|reflexivity].
  rewrite Hr. reflexivity.
Qed.

Lemma evaluate_answers_combines (a1 a2 prompt : string) (docs : list DocumentText)
    (ev : Evaluation) :
  _evaluate_answers simple_prompt py_str budget a1 a2 prompt docs = Ok ev ->
  exists far gr ar rr, combine_results py_str far gr ar rr docs = Ok ev.
Proof.
  unfold _evaluate_answers.
  destruct (_determine_final_answer _ _ _ _ _) as [far|]; cbn [bind]; [|discriminate].
  destruct (_evaluate_groundedness _ _ _ _ _ _ _) as [gr|]; cbn [bind]; [|discriminate].
  destruct (prefix_of 100 (justification gr)); cbn [bind]; [|discriminate].
  destruct (_evaluate_accuracy _ _ _ _ _ _ _) as [ar|]; cbn [bind]; [|discriminate].
  destruct (prefix_of 100 (justification ar)); cbn [bind]; [|discriminate].
  destruct (_evaluate_relevance _ _ _ _ _) as [rr|]; cbn [bind]; [|discriminate].
  destruct (prefix_of 100 (justification rr)); cbn [bind]; [|discriminate].
  intros H. now exists far, gr, ar, rr.
Qed.

(** With three scores in [0, 1], a confidence in [0, 1] and justifications
    that are text, the construction of the metrics does not fail: the mean
    of the scores is in [0, 1] too, and the number of documents is not
    negative. *)
Lemma combine_results_total (far : FinalAnswer) (gr ar rr : MetricResult)
    (docs : list DocumentText) :
  in_unit (score gr) = true -> in_unit (score ar) = true -> in_unit (score rr) = true ->
  in_unit (confidence far) = true ->
  is_str (justification gr) = true -> is_str (justification ar) = true ->
  is_str (justification rr) = true ->
  exists ev, combine_results py_str far gr ar rr docs = Ok ev.
Proof.
  intros Hg Ha Hr Hc Jg Ja Jr.
  pose proof (mean_in_unit _ _ _ Hg Ha Hr) as Ho.
  assert (Hn : (0 <=? len_list docs) = true) by (apply Z.leb_le; unfold len_list; lia).
  unfold combine_results, Metrics_new. cbv zeta.
  rewrite Hg, Ha, Hr, Hc, Jg, Ja, Jr, Hn, Ho. cbn [andb bind]. now eexists.
Qed.

(** The preview of a justification that is text does not raise. *)
Lemma prefix_of_str (n : nat) (j : json) :
  is_str j = true -> exists p, prefix_of n j = Ok p.
Proof. destruct j; try discriminate. intros _. now eexists. Qed.

(** The preview of a justification that is not text raises [TypeError],
    or passes a value on which the construction of the metrics fails. *)
Lemma prefix_of_other (n : nat) (j : json) :
  is_str j = false ->
  (exists e, prefix_of n j = Raise e /\ exn_class e = "TypeError")
  \/ (exists p, prefix_of n j = Ok p).
Proof.
  destruct j; try discriminate; intros _;
    try (left; eexists; split; reflexivity); right; now eexists.
Qed.

(** The metrics are not constructed from a confidence or a score outside
    [0, 1], nor from a justification that is not text. *)
Lemma combine_results_invalid (far : FinalAnswer) (gr ar rr : MetricResult)
    (docs : list DocumentText) :
  well_formed far gr ar rr = false ->
  combine_results py_str far gr ar rr docs = Raise validation_error.
Proof.
  unfold well_formed, combine_results, Metrics_new. cbv zeta. intros H.
  destruct (in_unit (confidence far)); [|reflexivity].
  destruct (in_unit (score gr)); [|reflexivity].
  destruct (is_str (justification gr)); [|reflexivity].
  destruct (in_unit (score ar)); [|reflexivity].
  destruct (is_str (justification ar)); [|reflexivity].
  destruct (in_unit (score rr)); [|reflexivity].
  destruct (is_str (justification rr)); [discriminate H|reflexivity].
Qed.

Lemma evaluate_answers_well_formed (a1 a2 prompt : string) (docs : list DocumentText)
    (far : FinalAnswer) (gr ar rr : MetricResult) :
  _determine_final_answer simple_prompt budget a1 a2 prompt = Ok far ->
  _evaluate_groundedness simple_prompt py_str budget (final_answer far) prompt
    (doc_context_of docs) a1 = Ok gr ->
  _evaluate_accuracy simple_prompt py_str budget (final_answer far) prompt
    (doc_context_of docs) a1 = Ok ar ->
  _evaluate_relevance simple_prompt py_str budget (final_answer far) prompt = Ok rr ->
  well_formed far gr ar rr = true ->
  exists ev, _evaluate_answers simple_prompt py_str budget a1 a2 prompt docs = Ok ev.
Proof.
  intros Hf Hg Ha Hr Hw. rewrite (evaluate_answers_steps _ _ _ _ _ _ _ _ Hf Hg Ha Hr).
  unfold well_formed in Hw.
  do 6 (apply andb_prop in Hw; destruct Hw as [Hw ?]).
  destruct (prefix_of_str 100 (justification gr)) as [? ->]; [assumption|].
  destruct (prefix_of_str 100 (justification ar)) as [? ->]; [assumption|].
  destruct (prefix_of_str 100 (justification rr)) as [? ->]; [assumption|].
  cbn [bind]. now apply combine_results_total.
Qed.

Lemma evaluate_answers_malformed (a1 a2 prompt : string) (docs : list DocumentText)
    (far : FinalAnswer) (gr ar rr : MetricResult) :
  _determine_final_answer simple_prompt budget a1 a2 prompt = Ok far ->
  _evaluate_groundedness simple_prompt py_str budget (final_answer far) prompt
    (doc_context_of docs) a1 = Ok gr ->
  _evaluate_accuracy simple_prompt py_str budget (final_answer far) prompt
    (doc_context_of docs) a1 = Ok ar ->
  _evaluate_relevance simple_prompt py_str budget (final_answer far) prompt = Ok rr ->
  well_formed far gr ar rr = false ->
  exists e, _evaluate_answers simple_prompt py_str budget a1 a2 prompt docs = Raise e
            /\ (exn_class e = "TypeError" \/ exn_class e = "ValidationError").
Proof.
  intros Hf Hg Ha Hr Hw. rewrite (evaluate_answers_steps _ _ _ _ _ _ _ _ Hf Hg Ha Hr).
  assert (Hp : forall j (k : result Evaluation),
             (exists e, k = Raise e
                        /\ (exn_class e = "TypeError" \/ exn_class e = "ValidationError")) ->
             exists e, (_ <- prefix_of 100 j ;; k) = Raise e
                       /\ (exn_class e = "TypeError" \/ exn_class e = "ValidationError")).
  { intros j k (e & -> & He).
    destruct (is_str j) eqn:Ej.
    - destruct (prefix_of_str 100 j Ej) as [p ->]. cbn [bind]. now exists e.
    - destruct (prefix_of_other 100 j Ej) as [(e' & -> & He')|(p & ->)]; cbn [bind].
      + exists e'. split; [reflexivity|now left].
      + now exists e. }
  do 3 apply Hp. exists validation_error.
  split; [now apply combine_results_invalid|now right].
Qed.

(** C3, as amended: for every triple of scores in [0, 1], the metrics that
    are constructed from it hold the three scores, their binary64 mean
    [(groundedness + accuracy + relevance) / 3] as [overall_score] (the
    same number, and equal to it under [==]), which is in [0, 1], and
    [needs_review] equal to [overall_score < 0.8], that is false exactly
    when [0.8 <= overall_score].  The construction succeeds when the
    confidence is in [0, 1] and the justifications are text, and the same
    holds of the metrics of every evaluation that [_evaluate_answers]
    returns.  The comparison is made on the rounded mean: the scores 1.0,
    1.0 and 0.4, and the scores 1.0, 0.8 and 0.6, give the mean
    0.7999999999999999 and [needs_review] true, and the scores 0.8, 0.8 and
    0.8 give 0.8000000000000002 and [needs_review] false. *)
Theorem metrics_invariant (far : FinalAnswer) (gr ar rr : MetricResult)
    (docs : list DocumentText) :
  in_unit (score gr) = true -> in_unit (score ar) = true -> in_unit (score rr) = true ->
  (in_unit (confidence far) = true ->
   is_str (justification gr) = true -> is_str (justification ar) = true ->
   is_str (justification rr) = true ->
   exists ev, combine_results py_str far gr ar rr docs = Ok ev)
  /\ (forall ev,
        combine_results py_str far gr ar rr docs = Ok ev ->
        let m := metrics ev in
        groundedness m = score gr /\ accuracy m = score ar /\ relevance m = score rr
        /\ overall_score m = ((score gr + score ar + score rr) / 3)%float
        /\ (overall_score m =? (score gr + score ar + score rr) / 3)%float = true
        /\ in_unit (overall_score m) = true
        /\ needs_review m = (overall_score m <? 0.8)%float
        /\ needs_review m = negb (0.8 <=? overall_score m)%float)
  /\ (forall a1 a2 prompt ev,
        _evaluate_answers simple_prompt py_str budget a1 a2 prompt docs = Ok ev ->
        let m := metrics ev in
        in_unit (groundedness m) = true
        /\ in_unit (accuracy m) = true
        /\ in_unit (relevance m) = true
        /\ overall_score m = ((groundedness m + accuracy m + relevance m) / 3)%float
        /\ (overall_score m =? (groundedness m + accuracy m + relevance m) / 3)%float = true
        /\ needs_review m = (overall_score m <? 0.8)%float
        /\ needs_review m = negb (0.8 <=? overall_score m)%float)
  /\ (forall g a r jg ja jr ev,
        In (g, a, r) [ (1.0, 1.0, 0.4); (1.0, 0.4, 1.0); (0.4, 1.0, 1.0);
                       (1.0, 0.8, 0.6); (0.6, 0.8, 1.0) ]%float ->
        combine_results py_str far
          {| score := g; justification := jg |} {| score := a; justification := ja |}
          {| score := r; justification := jr |} docs = Ok ev ->
        overall_score (metrics ev) = 0.7999999999999999%float
        /\ (overall_score (metrics ev) =? 0.8)%float = false
        /\ needs_review (metrics ev) = true)
  /\ (forall jg ja jr ev,
        combine_results py_str far
          {| score := 0.8; justification := jg |} {| score := 0.8; justification := ja |}
          {| score := 0.8; justification := jr |} docs = Ok ev ->
        overall_score (metrics ev) = 0.8000000000000002%float
        /\ (overall_score (metrics ev) =? 0.8)%float = false
        /\ needs_review (metrics ev) = false).
Proof.
  intros Vg Va Vr.
  assert (Hreview : forall m : Metrics,
             in_unit (overall_score m) = true ->
             needs_review m = (overall_score m <? 0.8)%float ->
             needs_review m = negb (0.8 <=? overall_score m)%float).
  { intros m Uo Hn. rewrite Hn. apply ltb_negb_leb; [|reflexivity].
    unfold in_unit in Uo. apply andb_prop in Uo. exact (leb_eqb_refl _ _ (proj1 Uo)). }
  split; [|split; [|split; [|split]]].
  - intros Vc Jg Ja Jr. now apply combine_results_total.
  - intros ev Hc.
    destruct (combine_results_spec _ _ _ _ _ _ Hc)
      as (Hg & Ha & Hr & _ & _ & _ & Uo & Ho & Hn & _).
    cbv zeta. repeat split; auto.
    rewrite <- Ho. unfold in_unit in Uo. apply andb_prop in Uo.
    exact (leb_eqb_refl _ _ (proj1 Uo)).
  - intros a1 a2 prompt ev H.
    destruct (evaluate_answers_combines _ _ _ _ _ H) as (far' & gr' & ar' & rr' & Hc).
    destruct (combine_results_spec _ _ _ _ _ _ Hc)
      as (Hg & Ha & Hr & Ug & Ua & Ur & Uo & Ho & Hn & _).
    cbv zeta. rewrite Hg, Ha, Hr in *.
    assert (Hmean : overall_score (metrics ev)
                    = ((score gr' + score ar' + score rr') / 3)%float) by exact Ho.
    repeat split; auto.
    rewrite <- Hmean. unfold in_unit in Uo. apply andb_prop in Uo.
    exact (leb_eqb_refl _ _ (proj1 Uo)).
  - intros g a r jg ja jr ev Hin Hc.
    destruct (combine_results_spec _ _ _ _ _ _ Hc)
      as (_ & _ & _ & _ & _ & _ & _ & Ho & Hn & _).
    cbn [score] in Ho. rewrite Hn, Ho.
    cbn [In] in Hin.
    destruct Hin as [E|[E|[E|[E|[E|[]]]]]]; injection E as <- <- <-;
      repeat split; reflexivity.
  - intros jg ja jr ev Hc.
    destruct (combine_results_spec _ _ _ _ _ _ Hc)
      as (_ & _ & _ & _ & _ & _ & _ & Ho & Hn & _).
    cbn [score] in Ho. rewrite Hn, Ho. repeat split; reflexivity.
Qed.

(** C4, as amended: given a response of the service, the final-answer step
    returns and does not raise.  When the JSON of the response cannot be
    decoded, when the decoded value is not an object, when the confidence
    that it holds cannot be turned into a number, and in particular when
    the response has no opening or no closing brace, the step returns the
    condensed answer with confidence 0.7.  A decoded object that only
    lacks a key does not take this path: the step returns the
    [final_answer] of the object, or the condensed answer when the object
    has none, with the [confidence_score] of the object as a number, or
    0.8 when the object has none. *)
Theorem final_answer_recovery (a1 a2 prompt response : string) :
  simple_prompt final_answer_system_message
    (final_answer_user_message prompt a1 a2) 0.3 = Ok response ->
  (exists r, _determine_final_answer simple_prompt budget a1 a2 prompt = Ok r)
  /\ (forall e,
        loads budget (embedded_json response) = Raise e ->
        _determine_final_answer simple_prompt budget a1 a2 prompt
        = Ok (fallback_answer a2))
  /\ (forall v e,
        loads budget (embedded_json response) = Ok v ->
        final_answer_fields a2 v = Raise e ->
        _determine_final_answer simple_prompt budget a1 a2 prompt
        = Ok (fallback_answer a2))
  /\ (find "{" response = -1 \/ rfind "}" response = -1 ->
      _determine_final_answer simple_prompt budget a1 a2 prompt
      = Ok (fallback_answer a2))
  /\ (forall v,
        loads budget (embedded_json response) = Ok v ->
        (forall d, v <> JObject d) ->
        _determine_final_answer simple_prompt budget a1 a2 prompt
        = Ok (fallback_answer a2))
  /\ (forall d c e,
        loads budget (embedded_json response) = Ok (JObject d) ->
        dict_get d "confidence_score" = Some c ->
        to_float c = Raise e ->
        _determine_final_answer simple_prompt budget a1 a2 prompt
        = Ok (fallback_answer a2))
  /\ (forall d x,
        loads budget (embedded_json response) = Ok (JObject d) ->
        to_float (match dict_get d "confidence_score" with
                  | Some c => c
                  | None => JFloat 0.8
                  end) = Ok x ->
        _determine_final_answer simple_prompt budget a1 a2 prompt
        = Ok {| final_answer :=
                  match dict_get d "final_answer" with
                  | Some answer => answer
                  | None => JString a2
                  end;
                confidence := x |})
  /\ (forall d c x,
        loads budget (embedded_json response) = Ok (JObject d) ->
        dict_get d "final_answer" = None ->
        dict_get d "confidence_score" = Some c ->
        to_float c = Ok x ->
        _determine_final_answer simple_prompt budget a1 a2 prompt
        = Ok {| final_answer := JString a2; confidence := x |})
  /\ (forall d,
        loads budget (embedded_json response) = Ok (JObject d) ->
        dict_get d "confidence_score" = None ->
        _determine_final_answer simple_prompt budget a1 a2 prompt
        = Ok {| final_answer :=
                  match dict_get d "final_answer" with
                  | Some answer => answer
                  | None => JString a2
                  end;
                confidence := 0.8 |}).
Proof.
  intros Hs. unfold _determine_final_answer. rewrite Hs. cbn [bind].
  split; [|split; [|split; [|split; [|split; [|split; [|split; [|split]]]]]]].
  - now eexists.
  - intros e Hl. now rewrite final_answer_of_response_eq, Hl.
  - intros v e Hl Hf. rewrite final_answer_of_response_eq, Hl. cbn [bind].
    now rewrite Hf.
  - intros H. rewrite final_answer_of_response_eq.
    destruct (loads_without_braces budget response H) as (e & ->). reflexivity.
  - intros v Hl Hv. rewrite final_answer_of_response_eq, Hl. cbn [bind].
    destruct v; try reflexivity. now destruct (Hv d).
  - intros d c e Hl Hc Hf. rewrite final_answer_of_response_eq, Hl. cbn [bind].
    unfold final_answer_fields, get. cbn [bind]. now rewrite Hc, Hf.
  - intros d x Hl Hx.
    now rewrite (final_answer_of_response_decoded budget response a2 d x Hl Hx).
  - intros d c x Hl Ha Hc Hx.
    rewrite (final_answer_of_response_decoded budget response a2 d x Hl);
      [now rewrite Ha|now rewrite Hc].
  - intros d Hl Hc.
    rewrite (final_answer_of_response_decoded budget response a2 d 0.8 Hl);
      [reflexivity|now rewrite Hc].
Qed.

(** C6, as amended: given a response of the service, each of the three
    metric steps returns and does not raise; when the JSON of the response
    cannot be cut out or decoded, or the score in it cannot be read, the
    step returns the score 0.7 and a justification that names the metric
    and gives the error.  Output that can be decoded is not recovered from:
    the step returns the score and the justification of a decoded object as
    they are, and once the four steps have returned, [_evaluate_answers]
    returns when the confidence and the scores are in [0, 1] and the
    justifications are text, and raises [TypeError] or [ValidationError]
    otherwise. *)
Theorem metric_steps_recover (final_answer : json)
    (prompt doc_context agent_1_output : string) :
  (forall response,
     simple_prompt groundedness_system_message
       (groundedness_user_message py_str final_answer prompt doc_context agent_1_output)
       0.2 = Ok response ->
     recovers budget "Groundedness" "groundedness" response
       (_evaluate_groundedness simple_prompt py_str budget final_answer prompt
          doc_context agent_1_output))
  /\ (forall response,
        simple_prompt accuracy_system_message
          (accuracy_user_message py_str final_answer prompt doc_context agent_1_output)
          0.2 = Ok response ->
        recovers budget "Accuracy" "accuracy" response
          (_evaluate_accuracy simple_prompt py_str budget final_answer prompt
             doc_context agent_1_output))
  /\ (forall response,
        simple_prompt relevance_system_message
          (relevance_user_message py_str final_answer prompt) 0.2 = Ok response ->
        recovers budget "Relevance" "relevance" response
          (_evaluate_relevance simple_prompt py_str budget final_answer prompt))
  /\ (forall response d x,
        simple_prompt relevance_system_message
          (relevance_user_message py_str final_answer prompt) 0.2 = Ok response ->
        loads budget (embedded_json response) = Ok (JObject d) ->
        to_float (match dict_get d "score" with
                  | Some s => s
                  | None => JFloat 0.7
                  end) = Ok x ->
        _evaluate_relevance simple_prompt py_str budget final_answer prompt
        = Ok {| score := x;
                justification :=
                  match dict_get d "justification" with
                  | Some j => j
                  | None => JString "Unable to evaluate relevance"
                  end |})
  /\ (forall a1 a2 docs far gr ar rr,
        _determine_final_answer simple_prompt budget a1 a2 prompt = Ok far ->
        _evaluate_groundedness simple_prompt py_str budget (Agent3Evaluator.final_answer far)
          prompt (doc_context_of docs) a1 = Ok gr ->
        _evaluate_accuracy simple_prompt py_str budget (Agent3Evaluator.final_answer far)
          prompt (doc_context_of docs) a1 = Ok ar ->
        _evaluate_relevance simple_prompt py_str budget (Agent3Evaluator.final_answer far)
          prompt = Ok rr ->
        (well_formed far gr ar rr = true ->
         exists ev,
           _evaluate_answers simple_prompt py_str budget a1 a2 prompt docs = Ok ev)
        /\ (well_formed far gr ar rr = false ->
            exists e,
              _evaluate_answers simple_prompt py_str budget a1 a2 prompt docs = Raise e
              /\ (exn_class e = "TypeError" \/ exn_class e = "ValidationError"))).
Proof.
  split; [|split; [|split; [|split]]].
  - intros response Hs.
    unfold _evaluate_groundedness. rewrite Hs. apply metric_of_response_recovers.
  - intros response Hs.
    unfold _evaluate_accuracy. rewrite Hs. apply metric_of_response_recovers.
  - intros response Hs.
    unfold _evaluate_relevance. rewrite Hs. apply metric_of_response_recovers.
  - intros response d x Hs Hl Hx. unfold _evaluate_relevance. rewrite Hs. cbn [bind].
    now rewrite (metric_of_response_decoded budget "Relevance" "relevance" response d x).
  - intros a1 a2 docs far gr ar rr Hf Hg Ha Hr. split; intros Hw.
    + now apply (evaluate_answers_well_formed a1 a2 prompt docs far gr ar rr).
    + now apply (evaluate_answers_malformed a1 a2 prompt docs far gr ar rr).
Qed.

End EvaluatorClaims.

Section EvaluatorRuns.
Import Agent3Evaluator Spec Scenario.

Lemma metrics_invariant_witness :
  exists ev,
    combine_results str_of_text
      {| final_answer := JString "Two complaints"; confidence := 0.95 |}
      {| score := 0.9; justification := JString "Both lines are in the document." |}
      {| score := 0.7; justification := JString "The count is right." |}
      {| score := 0.5; justification := JString "The answer is on topic." |} []
    = Ok ev
    /\ overall_score (metrics ev) = ((0.9 + 0.7 + 0.5) / 3)%float
    /\ needs_review (metrics ev) = (overall_score (metrics ev) <? 0.8)%float.
Proof.
  destruct (metrics_invariant scoring_service str_of_text budget
              {| final_answer := JString "Two complaints"; confidence := 0.95 |}
              {| score := 0.9; justification := JString "Both lines are in the document." |}
              {| score := 0.7; justification := JString "The count is right." |}
              {| score := 0.5; justification := JString "The answer is on topic." |} []
              eq_refl eq_refl eq_refl) as (Htotal & Hinv & _).
  destruct (Htotal eq_refl eq_refl eq_refl eq_refl) as [ev Hev].
  exists ev. split; [exact Hev|].
  destruct (Hinv ev Hev) as (_ & _ & _ & Ho & _ & _ & Hn & _).
  split; [exact Ho|exact Hn].
Defined.

(** Against C3 as stated: the service gives the scores 1.0, 1.0 and 0.4,
    whose mean is 0.8 (in tenths, 10 + 10 + 4 is 3 times 8); the
    evaluation has the [overall_score] 0.7999999999999999, which is not
    0.8, and [needs_review] true. *)
Lemma metrics_boundary_counterexample :
  exists ev,
    _evaluate_answers rubric_service str_of_text budget "A long draft" "Two complaints"
      Scenario.prompt [] = Ok ev
    /\ groundedness (metrics ev) = PyFloat.of_decimal false 10 (-1)
    /\ accuracy (metrics ev) = PyFloat.of_decimal false 10 (-1)
    /\ relevance (metrics ev) = PyFloat.of_decimal false 4 (-1)
    /\ 10 + 10 + 4 = 3 * 8
    /\ 0.8%float = PyFloat.of_decimal false 8 (-1)
    /\ in_unit (groundedness (metrics ev)) = true
    /\ in_unit (accuracy (metrics ev)) = true
    /\ in_unit (relevance (metrics ev)) = true
    /\ overall_score (metrics ev) = 0.7999999999999999%float
    /\ (overall_score (metrics ev) =? 0.8)%float = false
    /\ (overall_score (metrics ev) <? 0.8)%float = true
    /\ needs_review (metrics ev) = true.
Proof.
  eexists. split; [vm_compute; reflexivity|].
  repeat split; vm_compute; reflexivity.
Qed.

Lemma final_answer_recovery_witness :
  _determine_final_answer (constant_service "I cannot decide.") budget "A long draft"
    "Two complaints" Scenario.prompt
  = Ok (fallback_answer "Two complaints").
Proof.
  apply (final_answer_recovery (constant_service "I cannot decide.") budget
           "A long draft" "Two complaints" Scenario.prompt "I cannot decide.");
    [reflexivity|left; reflexivity].
Defined.

(** Against C4 as stated: in the response [{}] the lookup of both keys
    fails, and the step returns the condensed answer with confidence 0.8,
    not 0.7. *)
Lemma final_answer_missing_key_counterexample :
  loads budget (embedded_json "{}") = Ok (JObject [])
  /\ dict_get (@nil (string * json)) "final_answer" = None
  /\ dict_get (@nil (string * json)) "confidence_score" = None
  /\ _determine_final_answer (constant_service "{}") budget "A long draft"
       "Two complaints" Scenario.prompt
     = Ok {| final_answer := JString "Two complaints"; confidence := 0.8 |}
  /\ _determine_final_answer (constant_service "{}") budget "A long draft"
       "Two complaints" Scenario.prompt
     <> Ok (fallback_answer "Two complaints").
Proof.
  repeat split; try (vm_compute; reflexivity).
  intros H.
  apply (f_equal (fun r => match r with
                           | Ok x => (confidence x <? 0.75)%float
                           | Raise _ => false
                           end)) in H.
  vm_compute in H. discriminate H.
Qed.

Lemma metric_steps_recover_witness :
  _evaluate_relevance (constant_service "It is relevant.") str_of_text budget
    (JString "Two complaints") Scenario.prompt
  = Ok (error_metric "Relevance"
          (Exn "JSONDecodeError" "Expecting value: line 1 column 1 (char 0)")).
Proof.
  apply (proj1 (proj2 (proj2 (metric_steps_recover (constant_service "It is relevant.")
                                str_of_text budget (JString "Two complaints")
                                Scenario.prompt "" "")))
           "It is relevant." eq_refl).
  reflexivity.
Defined.

(** Against C6 as stated: a groundedness response that is JSON with the
    score 2 is not recovered from; the step returns the score 2, and
    [_evaluate_answers] raises when it constructs the metrics.  Likewise a
    justification that is [null] is returned by the accuracy step, and
    [_evaluate_answers] raises [TypeError] when it previews it. *)
Lemma metric_malformed_counterexample :
  _evaluate_groundedness overscoring_service str_of_text budget (JString "Two complaints")
    Scenario.prompt "" "A long draft"
  = Ok {| score := 2; justification := JString "Both lines are in the document." |}
  /\ _evaluate_answers overscoring_service str_of_text budget "A long draft"
       "Two complaints" Scenario.prompt []
     = Raise validation_error
  /\ _evaluate_accuracy null_justification_service str_of_text budget
       (JString "Two complaints") Scenario.prompt "" "A long draft"
     = Ok {| score := 0.7; justification := JNull |}
  /\ _evaluate_answers null_justification_service str_of_text budget "A long draft"
       "Two complaints" Scenario.prompt []
     = Raise (Exn "TypeError" "'NoneType' object is not subscriptable").
Proof. repeat split; vm_compute; reflexivity. Qed.

End EvaluatorRuns.
